(** * USB printer bridge (bridge.py): a shallow embedding and its properties

    The program exposes a USB device as a pseudo-terminal.  Its session
    object, [USBPrinterBridge], is embedded here as a record of its
    attributes; its methods are computations in a state-and-exception
    monad over that record and a chronological trace of every call the
    program makes to pyusb, to the operating system and to [print].

    Modelling conventions.
    - Everything outside the program (the device, libusb, the operating
      system) is an environment [Env]: for every external call it decides,
      from the history of calls so far and the arguments, whether the call
      returns a value or raises.  Theorems quantify over every environment.
    - A raised exception keeps the state changes made before it, as in
      Python; that is why the monad returns the state beside the result.
    - Exceptions are the subclasses of Python's [Exception] that the
      handlers of the program discriminate.  [KeyboardInterrupt] and
      [SystemExit] are not errors of a call and are not modelled;
      [print] and [time.sleep] are taken not to fail.
    - [while] loops take a bound on the number of iterations (fuel); a loop
      that exhausts it yields [OutOfFuel], which no handler catches.
    - The reader thread is not interleaved with the main thread: spawning it
      is an event of the trace, and its loop is a computation of its own. *)

From Stdlib Require Import ZArith List String Bool Lia QArith.
Import ListNotations.
Open Scope Z_scope.

(** ** Constants of the module *)

Definition USB_READ_TIMEOUT : Z := 200.   (* ms *)
Definition USB_WRITE_TIMEOUT : Z := 5000. (* ms *)

(** Argument of [select.select] (seconds), of [os.read] (bytes) and of
    [time.sleep] (seconds), as written in the loops. *)
Definition SELECT_TIMEOUT : Q := 2 # 10.
Definition PTY_READ_SIZE : Z := 4096.
Definition LOOP_SLEEP : Q := 1 # 1000.

(** pyusb: [usb.util.endpoint_direction(address)] is [address & 0x80];
    [ENDPOINT_OUT = 0x00], [ENDPOINT_IN = 0x80]. *)
Definition ENDPOINT_OUT : Z := 0.
Definition ENDPOINT_IN : Z := 128.
Definition endpoint_direction (address : Z) : Z := Z.land address 128.

(** [errno.EBADF] *)
Definition EBADF : Z := 9.

(** ** USB descriptors *)

Definition bytes := list Byte.byte.

(** [wMaxPacketSize] is optional because the reader loop asks
    [hasattr(self.in_ep, 'wMaxPacketSize')]. *)
Record Endpoint := mkEndpoint {
  bEndpointAddress : Z;
  wMaxPacketSize : option Z
}.

Record Interface := mkInterface {
  bInterfaceNumber : Z;
  bAlternateSetting : Z;
  bInterfaceClass : Z;
  endpoints : list Endpoint
}.

(** A configuration holds, for each interface index, the list of its
    alternate settings.  Iterating a pyusb configuration yields
    [Interface(cfg, i, alt)] for [i] ascending and, within it, [alt]
    ascending; [cfg[(i, alt)]] is the same object by index. *)
Definition Configuration := list (list Interface).

Definition cfg_iter (cfg : Configuration) : list Interface := List.concat cfg.

Definition cfg_getitem (cfg : Configuration) (i alt : nat) : option Interface :=
  match nth_error cfg i with
  | Some alts => nth_error alts alt
  | None => None
  end.

(** ** Exceptions *)

Inductive ExcClass :=
| cls_Exception
| cls_OSError
| cls_USBError            (* usb.core.USBError(IOError) *)
| cls_USBTimeoutError     (* usb.core.USBTimeoutError(USBError) *)
| cls_RuntimeError
| cls_NotImplementedError (* NotImplementedError(RuntimeError) *)
| cls_AttributeError
| cls_TypeError
| cls_ValueError
| cls_NoBackendError      (* usb.core.NoBackendError(ValueError) *)
| cls_IndexError.

Definition ExcClass_eqb (c d : ExcClass) : bool :=
  match c, d with
  | cls_Exception, cls_Exception
  | cls_OSError, cls_OSError
  | cls_USBError, cls_USBError
  | cls_USBTimeoutError, cls_USBTimeoutError
  | cls_RuntimeError, cls_RuntimeError
  | cls_NotImplementedError, cls_NotImplementedError
  | cls_AttributeError, cls_AttributeError
  | cls_TypeError, cls_TypeError
  | cls_ValueError, cls_ValueError
  | cls_NoBackendError, cls_NoBackendError
  | cls_IndexError, cls_IndexError => true
  | _, _ => false
  end.

(** The class itself followed by its base classes up to [Exception]. *)
Definition mro (c : ExcClass) : list ExcClass :=
  match c with
  | cls_Exception => [cls_Exception]
  | cls_OSError => [cls_OSError; cls_Exception]
  | cls_USBError => [cls_USBError; cls_OSError; cls_Exception]
  | cls_USBTimeoutError =>
      [cls_USBTimeoutError; cls_USBError; cls_OSError; cls_Exception]
  | cls_RuntimeError => [cls_RuntimeError; cls_Exception]
  | cls_NotImplementedError =>
      [cls_NotImplementedError; cls_RuntimeError; cls_Exception]
  | cls_AttributeError => [cls_AttributeError; cls_Exception]
  | cls_TypeError => [cls_TypeError; cls_Exception]
  | cls_ValueError => [cls_ValueError; cls_Exception]
  | cls_NoBackendError => [cls_NoBackendError; cls_ValueError; cls_Exception]
  | cls_IndexError => [cls_IndexError; cls_Exception]
  end.

Record Exc := mkExc {
  exc_class : ExcClass;
  exc_errno : option Z;
  exc_msg : string
}.

Definition isinstance (e : Exc) (c : ExcClass) : bool :=
  existsb (ExcClass_eqb c) (mro (exc_class e)).

(** [e.errno == errno.EBADF] *)
Definition errno_is (e : Exc) (n : Z) : bool :=
  match exc_errno e with
  | Some k => k =? n
  | None => false
  end.

(** ** External calls and the trace *)

Inductive Outcome (A : Type) :=
| Returns (a : A)
| Raises (e : Exc).
Arguments Returns {A} a.
Arguments Raises {A} e.

(** One constructor per [print] statement of the class and of [main], with
    the interpolated values. *)
Inductive LogMsg :=
| log_detached (iface : option Z)       (* "detached kernel driver from iface {iface}" *)
| log_detach_failed (e : Exc)           (* "no pude detach kernel driver: {e}" *)
| log_pty_slave (name : option string)  (* "PTY slave device: {name}" *)
| log_stopping                          (* "stopping..." *)
| log_stopped                           (* "stopped" *)
| log_usb_to_pty (n : nat)              (* "USB->PTY {n} bytes" *)
| log_usb_reader_error (e : Exc)        (* "error en usb_reader: {e}" *)
| log_no_out_endpoint (n : nat)         (* "app escribio {n} bytes pero no hay endpoint OUT; ignorando" *)
| log_pty_to_usb (n : nat)              (* "PTY->USB {n} bytes" *)
| log_usb_write_error (e : Exc)         (* "error al escribir USB: {e}" *)
| log_no_backend                        (* "No se encontro backend de libusb. ..." *)
| log_no_printer                        (* "No encontre la impresora USB ..." *)
| log_use_lsusb                         (* "Usa lsusb o pasa --vid/--pid." *)
| log_error (e : Exc).                  (* "error: {e}" *)

Inductive ThreadTarget := target_usb_reader_loop.

(** A device as [usb.core.find] hands it over: iterating it yields the
    configurations listed and then, when [dev_iter_error] is set, fails. *)
Record Device := mkDevice {
  dev_configurations : list Configuration;
  dev_iter_error : option Exc
}.

(** Every call that leaves the program, with its arguments and outcome. *)
Inductive Event :=
| ev_get_active_configuration (r : Outcome Configuration)
| ev_is_kernel_driver_active (iface : option Z) (r : Outcome bool)
| ev_detach_kernel_driver (iface : option Z) (r : Outcome unit)
| ev_attach_kernel_driver (iface : option Z) (r : Outcome unit)
| ev_claim_interface (iface : option Z) (r : Outcome unit)
| ev_release_interface (iface : option Z) (r : Outcome unit)
| ev_openpty (r : Outcome (Z * Z))
| ev_ttyname (fd : Z) (r : Outcome string)
| ev_close (fd : Z) (r : Outcome unit)
| ev_thread_start (target : ThreadTarget) (r : Outcome unit)
| ev_usb_read (endpoint : Z) (size : Z) (timeout : Z) (r : Outcome bytes)
| ev_usb_write (endpoint : Z) (data : bytes) (timeout : Z) (r : Outcome Z)
| ev_os_write (fd : option Z) (data : bytes) (r : Outcome Z)
| ev_os_read (fd : option Z) (n : Z) (r : Outcome bytes)
| ev_select (fd : option Z) (timeout : Q) (r : Outcome bool)
| ev_sleep (secs : Q)
| ev_find (vid pid : Z) (r : Outcome (option Device))
| ev_find_all (r : Outcome (list Device))
| ev_set_configuration (r : Outcome unit)
| ev_print (msg : LogMsg).

Definition Trace := list Event.

(** The environment: the outcome of each external call, given the calls
    made so far.  [env_select] answers whether the master descriptor is in
    the returned read list. *)
Record Env := mkEnv {
  env_get_active_configuration : Trace -> Outcome Configuration;
  env_is_kernel_driver_active : Trace -> option Z -> Outcome bool;
  env_detach_kernel_driver : Trace -> option Z -> Outcome unit;
  env_attach_kernel_driver : Trace -> option Z -> Outcome unit;
  env_claim_interface : Trace -> option Z -> Outcome unit;
  env_release_interface : Trace -> option Z -> Outcome unit;
  env_openpty : Trace -> Outcome (Z * Z);
  env_ttyname : Trace -> Z -> Outcome string;
  env_close : Trace -> Z -> Outcome unit;
  env_thread_start : Trace -> ThreadTarget -> Outcome unit;
  env_usb_read : Trace -> Z -> Z -> Z -> Outcome bytes;
  env_usb_write : Trace -> Z -> bytes -> Z -> Outcome Z;
  env_os_write : Trace -> option Z -> bytes -> Outcome Z;
  env_os_read : Trace -> option Z -> Z -> Outcome bytes;
  env_select : Trace -> option Z -> Q -> Outcome bool;
  env_find : Trace -> Z -> Z -> Outcome (option Device);
  env_find_all : Trace -> Outcome (list Device);
  env_set_configuration : Trace -> Outcome unit
}.

(** ** The session object *)

Record USBPrinterBridge := mkBridge {
  out_ep : option Endpoint;
  in_ep : option Endpoint;
  iface : option Z;
  _should_stop : bool;
  _master_fd : option Z;
  _slave_name : option string;
  _orig_kernel_attached : bool
}.

Definition __init__ : USBPrinterBridge :=
  {| out_ep := None;
     in_ep := None;
     iface := None;
     _should_stop := false;
     _master_fd := None;
     _slave_name := None;
     _orig_kernel_attached := false |}.

Definition set_out_ep (v : option Endpoint) (b : USBPrinterBridge) :=
  mkBridge v (in_ep b) (iface b) (_should_stop b) (_master_fd b)
           (_slave_name b) (_orig_kernel_attached b).
Definition set_in_ep (v : option Endpoint) (b : USBPrinterBridge) :=
  mkBridge (out_ep b) v (iface b) (_should_stop b) (_master_fd b)
           (_slave_name b) (_orig_kernel_attached b).
Definition set_iface (v : option Z) (b : USBPrinterBridge) :=
  mkBridge (out_ep b) (in_ep b) v (_should_stop b) (_master_fd b)
           (_slave_name b) (_orig_kernel_attached b).
Definition set_should_stop (v : bool) (b : USBPrinterBridge) :=
  mkBridge (out_ep b) (in_ep b) (iface b) v (_master_fd b)
           (_slave_name b) (_orig_kernel_attached b).
Definition set_master_fd (v : option Z) (b : USBPrinterBridge) :=
  mkBridge (out_ep b) (in_ep b) (iface b) (_should_stop b) v
           (_slave_name b) (_orig_kernel_attached b).
Definition set_slave_name (v : option string) (b : USBPrinterBridge) :=
  mkBridge (out_ep b) (in_ep b) (iface b) (_should_stop b) (_master_fd b)
           v (_orig_kernel_attached b).
Definition set_orig_kernel_attached (v : bool) (b : USBPrinterBridge) :=
  mkBridge (out_ep b) (in_ep b) (iface b) (_should_stop b) (_master_fd b)
           (_slave_name b) v.

(** Truth value of [self._master_fd] in [if self._master_fd:]: [None] and
    the descriptor [0] are false. *)
Definition truthy_fd (fd : option Z) : bool :=
  match fd with
  | Some n => negb (n =? 0)
  | None => false
  end.

(** ** The monad *)

Record State := mkState {
  self : USBPrinterBridge;
  trace : Trace
}.

Inductive Res (A : Type) :=
| Ok (a : A)
| Raise (e : Exc)
| OutOfFuel.
Arguments Ok {A} a.
Arguments Raise {A} e.
Arguments OutOfFuel {A}.

Definition M (A : Type) := State -> Res A * State.

Definition ret {A} (a : A) : M A := fun s => (Ok a, s).

Definition bind {A B} (m : M A) (k : A -> M B) : M B :=
  fun s =>
    match m s with
    | (Ok a, s') => k a s'
    | (Raise e, s') => (Raise e, s')
    | (OutOfFuel, s') => (OutOfFuel, s')
    end.

Definition raise {A} (e : Exc) : M A := fun s => (Raise e, s).

(** [try: m  except ... as e: h e]; a handler re-raises what its [except]
    clauses do not match. *)
Definition try_except {A} (m : M A) (h : Exc -> M A) : M A :=
  fun s =>
    match m s with
    | (Raise e, s') => h e s'
    | r => r
    end.

(** [try: m  finally: f]; an exception of [f] replaces the pending one. *)
Definition try_finally {A} (m : M A) (f : M unit) : M A :=
  fun s =>
    match m s with
    | (OutOfFuel, s') => (OutOfFuel, s')
    | (r, s') =>
        match f s' with
        | (Ok _, s'') => (r, s'')
        | (Raise e, s'') => (Raise e, s'')
        | (OutOfFuel, s'') => (OutOfFuel, s'')
        end
    end.

Declare Scope monad_scope.
Delimit Scope monad_scope with monad.
Notation "x <- m ;; k" := (bind m (fun x => k))
  (at level 61, m at next level, right associativity) : monad_scope.
Notation "m ;; k" := (bind m (fun _ => k))
  (at level 61, right associativity) : monad_scope.
Open Scope monad_scope.

Definition get_self : M USBPrinterBridge := fun s => (Ok (self s), s).

Definition modify_self (f : USBPrinterBridge -> USBPrinterBridge) : M unit :=
  fun s => (Ok tt, mkState (f (self s)) (trace s)).

Definition emit (ev : Event) : M unit :=
  fun s => (Ok tt, mkState (self s) (trace s ++ [ev])).

(** An external call: ask the environment, record call and outcome, then
    return or raise accordingly. *)
Definition call {A} (f : Trace -> Outcome A) (ev : Outcome A -> Event) : M A :=
  fun s =>
    let r := f (trace s) in
    let s' := mkState (self s) (trace s ++ [ev r]) in
    match r with
    | Returns a => (Ok a, s')
    | Raises e => (Raise e, s')
    end.

Definition print (msg : LogMsg) : M unit := emit (ev_print msg).

Definition sleep (secs : Q) : M unit := emit (ev_sleep secs).

(** ** Loop control *)

(** How an iteration of a [while] body ends: by [break], by [continue], or
    by reaching the end of the body. *)
Inductive LoopCtl := ctl_break | ctl_continue | ctl_end.

(** [while not self._should_stop: body] *)
Fixpoint while_not_should_stop (fuel : nat) (body : M LoopCtl) : M unit :=
  fun s =>
    if _should_stop (self s) then (Ok tt, s)
    else
      match fuel with
      | O => (OutOfFuel, s)
      | S fuel' =>
          (c <- body ;;
           match c with
           | ctl_break => ret tt
           | ctl_continue | ctl_end => while_not_should_stop fuel' body
           end) s
      end.

Definition is_empty {A} (l : list A) : bool :=
  match l with
  | [] => true
  | _ :: _ => false
  end.

(** What Python raises for [None.bEndpointAddress]. *)
Definition AttributeError_NoneType : Exc :=
  mkExc cls_AttributeError None
        "'NoneType' object has no attribute 'bEndpointAddress'".

(** What pyusb raises for [cfg[(0,0)]] when the configuration has no such
    interface.  Its backends check the interface index first and the
    alternate setting second, and name the index in the message. *)
Definition IndexError_interface (cfg : Configuration) : Exc :=
  match cfg with
  | [] => mkExc cls_IndexError None "Invalid interface index 0"
  | _ :: _ => mkExc cls_IndexError None "Invalid alternate setting index 0"
  end.

Definition NoEndpointsFound : Exc :=
  mkExc cls_RuntimeError None
        "No encontré endpoints IN/OUT en la interfaz USB seleccionada".

Definition at_most {A} (n : Z) (r : Outcome (list A)) : Outcome (list A) :=
  match r with
  | Returns l => Returns (firstn (Z.to_nat n) l)
  | Raises e => Raises e
  end.

Arguments at_most : simpl never.

(** ** Methods of [USBPrinterBridge] *)

Section Methods.

Variable env : Env.

(** The scan of [intf.endpoints()]: each endpoint overwrites the candidate
    of its direction. *)
Definition scan_endpoint (acc : option Endpoint * option Endpoint) (ep : Endpoint)
  : option Endpoint * option Endpoint :=
  let '(out_ep, in_ep) := acc in
  let addr := bEndpointAddress ep in
  if endpoint_direction addr =? ENDPOINT_OUT then (Some ep, in_ep)
  else if endpoint_direction addr =? ENDPOINT_IN then (out_ep, Some ep)
  else (out_ep, in_ep).

Definition scan_endpoints (eps : list Endpoint)
  : option Endpoint * option Endpoint :=
  fold_left scan_endpoint eps (None, None).

(** The [for interface in cfg: ... break] search, then the fallback. *)
Definition select_interface (cfg : Configuration) : option Interface :=
  match find (fun interface => bInterfaceClass interface =? 7) (cfg_iter cfg) with
  | Some intf => Some intf
  | None => cfg_getitem cfg 0 0
  end.

Definition _find_endpoints : M unit :=
  cfg <- call (env_get_active_configuration env) ev_get_active_configuration ;;
  intf <- match select_interface cfg with
          | Some intf => ret intf
          | None => raise (IndexError_interface cfg)
          end ;;
  modify_self (set_iface (Some (bInterfaceNumber intf))) ;;
  let '(out_ep, in_ep) := scan_endpoints (endpoints intf) in
  modify_self (set_out_ep out_ep) ;;
  modify_self (set_in_ep in_ep).

Definition _claim : M unit :=
  try_except
    (b <- get_self ;;
     active <- call (fun t => env_is_kernel_driver_active env t (iface b))
                    (ev_is_kernel_driver_active (iface b)) ;;
     if (active : bool) then
       try_except
         (call (fun t => env_detach_kernel_driver env t (iface b))
               (ev_detach_kernel_driver (iface b)) ;;
          modify_self (set_orig_kernel_attached true) ;;
          print (log_detached (iface b)))
         (fun e =>
            if isinstance e cls_USBError then print (log_detach_failed e)
            else raise e)
     else ret tt)
    (fun e =>
       if isinstance e cls_NotImplementedError || isinstance e cls_AttributeError
       then ret tt
       else raise e) ;;
  b <- get_self ;;
  call (fun t => env_claim_interface env t (iface b)) (ev_claim_interface (iface b)).

Definition _release : M unit :=
  b <- get_self ;;
  try_except
    (call (fun t => env_release_interface env t (iface b))
          (ev_release_interface (iface b)))
    (fun e => if isinstance e cls_Exception then ret tt else raise e) ;;
  if _orig_kernel_attached b then
    try_except
      (call (fun t => env_attach_kernel_driver env t (iface b))
            (ev_attach_kernel_driver (iface b)))
      (fun e => if isinstance e cls_Exception then ret tt else raise e)
  else ret tt.

Definition _create_pty : M unit :=
  ms <- call (env_openpty env) ev_openpty ;;
  let '(master, slave) := ms in
  modify_self (set_master_fd (Some master)) ;;
  name <- call (fun t => env_ttyname env t slave) (ev_ttyname slave) ;;
  modify_self (set_slave_name (Some name)) ;;
  call (fun t => env_close env t slave) (ev_close slave).

Definition stop : M unit :=
  b <- get_self ;;
  if _should_stop b then ret tt
  else
    modify_self (set_should_stop true) ;;
    print log_stopping ;;
    try_except
      (b <- get_self ;;
       match _master_fd b with
       | Some fd =>
           if truthy_fd (Some fd)
           then call (fun t => env_close env t fd) (ev_close fd)
           else ret tt
       | None => ret tt
       end)
      (fun e => if isinstance e cls_Exception then ret tt else raise e) ;;
    try_except
      _release
      (fun e => if isinstance e cls_Exception then ret tt else raise e) ;;
    print log_stopped.

(** One iteration of the body of the loop of [_usb_reader_loop]. *)
Definition usb_reader_body (bufsize : Z) : M LoopCtl :=
  c <- try_except
         (b <- get_self ;;
          addr <- match in_ep b with
                  | Some ep => ret (bEndpointAddress ep)
                  | None => raise AttributeError_NoneType
                  end ;;
          data <- call (fun t => env_usb_read env t addr bufsize USB_READ_TIMEOUT)
                       (ev_usb_read addr bufsize USB_READ_TIMEOUT) ;;
          if negb (is_empty data) then
            try_except
              (b <- get_self ;;
               call (fun t => env_os_write env t (_master_fd b) data)
                    (ev_os_write (_master_fd b) data) ;;
               print (log_usb_to_pty (List.length data)) ;;
               ret ctl_end)
              (fun e =>
                 if isinstance e cls_OSError then
                   if errno_is e EBADF then ret ctl_break else ret ctl_end
                 else raise e)
          else ret ctl_end)
         (fun e =>
            if isinstance e cls_USBError then ret ctl_end
            else if isinstance e cls_Exception then
              print (log_usb_reader_error e) ;; ret ctl_break
            else raise e) ;;
  match c with
  | ctl_end => sleep LOOP_SLEEP ;; ret ctl_end
  | _ => ret c
  end.

Definition _usb_reader_loop (fuel : nat) : M unit :=
  b <- get_self ;;
  let bufsize :=
    match in_ep b with
    | Some ep =>
        match wMaxPacketSize ep with
        | Some n => n
        | None => 512
        end
    | None => 512
    end in
  while_not_should_stop fuel (usb_reader_body bufsize).

(** What a spawned thread runs: [threading.Thread(target=...)]. *)
Definition run_target (t : ThreadTarget) (fuel : nat) : M unit :=
  match t with
  | target_usb_reader_loop => _usb_reader_loop fuel
  end.

(** [os.read(fd, n)] returns at most [n] bytes: what the environment offers
    is cut to [n]. *)
Definition os_read (fd : option Z) (n : Z) : M bytes :=
  call (fun t => at_most n (env_os_read env t fd n)) (ev_os_read fd n).

(** One iteration of the body of the loop of [_pty_writer_loop]. *)
Definition pty_writer_body (master : option Z) : M LoopCtl :=
  ready <- call (fun t => env_select env t master SELECT_TIMEOUT)
                (ev_select master SELECT_TIMEOUT) ;;
  c <- (if (ready : bool) then
          r <- try_except
                 (data <- os_read master PTY_READ_SIZE ;;
                  ret (Some data))
                 (fun e => if isinstance e cls_OSError then ret None else raise e) ;;
          match r with
          | None => ret ctl_break
          | Some data =>
              if is_empty data then ret ctl_break
              else
                b <- get_self ;;
                match out_ep b with
                | None =>
                    print (log_no_out_endpoint (List.length data)) ;;
                    ret ctl_continue
                | Some ep =>
                    try_except
                      (call (fun t => env_usb_write env t (bEndpointAddress ep)
                                                    data USB_WRITE_TIMEOUT)
                            (ev_usb_write (bEndpointAddress ep) data
                                          USB_WRITE_TIMEOUT) ;;
                       print (log_pty_to_usb (List.length data)))
                      (fun e =>
                         if isinstance e cls_USBError
                         then print (log_usb_write_error e)
                         else raise e) ;;
                    ret ctl_end
                end
          end
        else ret ctl_end) ;;
  match c with
  | ctl_end => sleep LOOP_SLEEP ;; ret ctl_end
  | _ => ret c
  end.

Definition _pty_writer_loop (fuel : nat) : M unit :=
  b <- get_self ;;
  let master := _master_fd b in
  while_not_should_stop fuel (pty_writer_body master).

Definition start (fuel : nat) : M unit :=
  _find_endpoints ;;
  b <- get_self ;;
  match out_ep b, in_ep b with
  | None, None => raise NoEndpointsFound
  | _, _ => ret tt
  end ;;
  _claim ;;
  _create_pty ;;
  b <- get_self ;;
  print (log_pty_slave (_slave_name b)) ;;
  match in_ep b with
  | Some _ =>
      call (fun t => env_thread_start env t target_usb_reader_loop)
           (ev_thread_start target_usb_reader_loop)
  | None => ret tt
  end ;;
  try_finally (_pty_writer_loop fuel) stop.

(** ** Module-level functions *)

Definition has_printer_interface (d : Device) : bool :=
  existsb (fun cfg => existsb (fun intf => bInterfaceClass intf =? 7) (cfg_iter cfg))
          (dev_configurations d).

Definition find_printer_device (vid pid : option Z) : M (option Device) :=
  match vid, pid with
  | Some v, Some p => call (fun t => env_find env t v p) (ev_find v p)
  | _, _ =>
      all_devs <- call (env_find_all env) ev_find_all ;;
      ret (find has_printer_interface all_devs)
  end.

(** [main] after argument parsing: [vid] and [pid] are the parsed options;
    the result is the exit status of the process.  The session object built
    by [USBPrinterBridge(dev)] replaces the one of the state. *)
Definition main (vid pid : option Z) (fuel : nat) : M Z :=
  r <- try_except
         (dev <- find_printer_device vid pid ;; ret (inr dev))
         (fun e =>
            if isinstance e cls_NoBackendError
            then print log_no_backend ;; ret (inl 1)
            else raise e) ;;
  match r with
  | inl status => ret status
  | inr None => print log_no_printer ;; print log_use_lsusb ;; ret 2
  | inr (Some dev) =>
      try_except
        (call (env_set_configuration env) ev_set_configuration)
        (fun e => if isinstance e cls_Exception then ret tt else raise e) ;;
      modify_self (fun _ => __init__) ;;
      try_except
        (start fuel ;; ret 0)
        (fun e =>
           if isinstance e cls_Exception
           then print (log_error e) ;; stop ;; ret 3
           else raise e)
  end.

End Methods.

(** ** Sessions and their operations *)

(** The state of a session right after [USBPrinterBridge(dev)]. *)
Definition fresh_session : State := mkState __init__ [].

(** The methods a holder of the session object can invoke. *)
Inductive Operation :=
| op_find_endpoints
| op_claim
| op_release
| op_create_pty
| op_start (fuel : nat)
| op_stop
| op_usb_reader_loop (fuel : nat)
| op_pty_writer_loop (fuel : nat).

Definition run_op (env : Env) (op : Operation) : M unit :=
  match op with
  | op_find_endpoints => _find_endpoints env
  | op_claim => _claim env
  | op_release => _release env
  | op_create_pty => _create_pty env
  | op_start fuel => start env fuel
  | op_stop => stop env
  | op_usb_reader_loop fuel => _usb_reader_loop env fuel
  | op_pty_writer_loop fuel => _pty_writer_loop env fuel
  end.

(** The state after a sequence of operations, each run to its result or
    its exception. *)
Definition run_ops (env : Env) (ops : list Operation) (s : State) : State :=
  fold_left (fun s op => snd (run_op env op s)) ops s.

(** ** Vocabulary of the properties *)

(** The events a computation added to the trace. *)
Definition events_since (s s' : State) : Trace :=
  skipn (List.length (trace s)) (trace s').

(** A computation preserves a relation between the state before and the
    state after, whatever its result. *)
Definition preserves {A} (R : State -> State -> Prop) (m : M A) : Prop :=
  forall s, R s (snd (m s)).

Class Frame (R : State -> State -> Prop) := {
  frame_refl : forall s, R s s;
  frame_trans : forall s1 s2 s3, R s1 s2 -> R s2 s3 -> R s1 s3
}.

(** The relation "the events selected by [p] and the attribute [g] did not
    change". *)
Definition unchanged {A} (p : Event -> bool) (g : USBPrinterBridge -> A)
  (s s' : State) : Prop :=
  filter p (trace s') = filter p (trace s) /\ g (self s') = g (self s).

(** The trace only grows. *)
Definition grows (s s' : State) : Prop :=
  (List.length (trace s) <= List.length (trace s'))%nat.

(** The trace is only ever extended. *)
Definition extends (s s' : State) : Prop :=
  exists t, trace s' = trace s ++ t.

(** A kernel driver detach that succeeded. *)
Definition is_detach_ok (ev : Event) : bool :=
  match ev with
  | ev_detach_kernel_driver _ (Returns _) => true
  | _ => false
  end.

Definition detached_during_claim (t : Trace) : bool := existsb is_detach_ok t.

(** [_orig_kernel_attached] records exactly whether a detach succeeded. *)
Definition detach_recorded (s : State) : Prop :=
  _orig_kernel_attached (self s) = detached_during_claim (trace s).

Definition keeps_detach_recorded (s s' : State) : Prop :=
  detach_recorded s -> detach_recorded s'.

(** Calls of the release path. *)
Definition is_release (ev : Event) : bool :=
  match ev with
  | ev_release_interface _ _ => true
  | ev_attach_kernel_driver _ _ => true
  | _ => false
  end.

Definition is_close (ev : Event) : bool :=
  match ev with
  | ev_close _ _ => true
  | _ => false
  end.

(** Calls that move bytes between the device and the terminal, or wait
    for them. *)
Definition is_forwarding (ev : Event) : bool :=
  match ev with
  | ev_usb_read _ _ _ _ => true
  | ev_usb_write _ _ _ _ => true
  | ev_os_read _ _ _ => true
  | ev_os_write _ _ _ => true
  | ev_select _ _ _ => true
  | _ => false
  end.

(** Once the stop flag is set it stays set and nothing is forwarded. *)
Definition stays_stopped (s s' : State) : Prop :=
  _should_stop (self s) = true ->
  unchanged is_forwarding _should_stop s s'.

(** Direction of an endpoint by bit 7 of its address. *)
Definition is_in_endpoint (ep : Endpoint) : bool :=
  Z.testbit (bEndpointAddress ep) 7.

Definition is_out_endpoint (ep : Endpoint) : bool :=
  negb (Z.testbit (bEndpointAddress ep) 7).

(** The last element of a list that satisfies [p]. *)
Definition last_such {A} (p : A -> bool) (l : list A) : option A :=
  find p (rev l).

(** A USB timeout as pyusb reports it: [USBTimeoutError], or a [USBError]
    whose errno is [ETIMEDOUT] (110). *)
Definition ETIMEDOUT : Z := 110.

Definition is_usb_timeout (e : Exc) : bool :=
  isinstance e cls_USBTimeoutError ||
  (isinstance e cls_USBError && errno_is e ETIMEDOUT).

(** ** Sample devices and environments *)

(** A printer interface with a bulk OUT endpoint (0x01) and a bulk IN
    endpoint (0x81). *)
Definition sample_cfg : Configuration :=
  [[mkInterface 0 0 7 [mkEndpoint 1 (Some 64); mkEndpoint 129 (Some 64)]]].

(** An environment that answers each kind of call the same way every time. *)
Definition sample_env (cfg : Configuration) (active : Outcome bool)
  (detach claim : Outcome unit) (pty : Outcome (Z * Z))
  (ready : Outcome bool) (os_rd usb_rd : Outcome bytes) (usb_wr : Outcome Z)
  : Env :=
  {| env_get_active_configuration := fun _ => Returns cfg;
     env_is_kernel_driver_active := fun _ _ => active;
     env_detach_kernel_driver := fun _ _ => detach;
     env_attach_kernel_driver := fun _ _ => Returns tt;
     env_claim_interface := fun _ _ => claim;
     env_release_interface := fun _ _ => Returns tt;
     env_openpty := fun _ => pty;
     env_ttyname := fun _ _ => Returns "/dev/pts/3"%string;
     env_close := fun _ _ => Returns tt;
     env_thread_start := fun _ _ => Returns tt;
     env_usb_read := fun _ _ _ _ => usb_rd;
     env_usb_write := fun _ _ _ _ => usb_wr;
     env_os_write := fun _ _ data => Returns (Z.of_nat (List.length data));
     env_os_read := fun _ _ _ => os_rd;
     env_select := fun _ _ _ => ready;
     env_find := fun _ _ _ => Returns (Some (mkDevice [cfg] None));
     env_find_all := fun _ => Returns [mkDevice [cfg] None];
     env_set_configuration := fun _ => Returns tt |}.

(** Everything succeeds; the terminal is readable and at end of file, so
    the writer loop ends at its first read. *)
Definition env_plain : Env :=
  sample_env sample_cfg (Returns false) (Returns tt) (Returns tt)
             (Returns (3, 4)) (Returns true) (Returns []) (Returns [])
             (Returns 0).

(** The last statement of [_claim]: the USB-level claim, issued for the
    session object [b] after the calls in [t]. *)
Definition usb_claim_at (env : Env) (b : USBPrinterBridge) (t : Trace)
  : Res unit * State :=
  call (fun t' => env_claim_interface env t' (iface b))
       (ev_claim_interface (iface b)) (mkState b t).

Definition exc_unsupported : Exc :=
  mkExc cls_NotImplementedError None "Operation not supported".

Definition exc_busy : Exc :=
  mkExc cls_USBError (Some 16) "Resource busy".

Definition exc_io : Exc :=
  mkExc cls_USBError (Some 5) "Input/Output Error".

Definition exc_access : Exc :=
  mkExc cls_USBError (Some 13) "Access denied".

Definition exc_pty : Exc :=
  mkExc cls_OSError (Some 2) "out of pty devices".

(** The kernel-driver query is unsupported and the interface is busy. *)
Definition env_unsupported_busy : Env :=
  sample_env sample_cfg (Raises exc_unsupported) (Returns tt) (Raises exc_busy)
             (Returns (3, 4)) (Returns true) (Returns []) (Returns [])
             (Returns 0).

(** A kernel driver is attached and cannot be detached. *)
Definition env_detach_denied : Env :=
  sample_env sample_cfg (Returns true) (Raises exc_access) (Returns tt)
             (Returns (3, 4)) (Returns true) (Returns []) (Returns [])
             (Returns 0).

(** A session that has resolved the endpoints of [sample_cfg], claimed the
    interface and opened its terminal. *)
Definition running_bridge : USBPrinterBridge :=
  {| out_ep := Some (mkEndpoint 1 (Some 64));
     in_ep := Some (mkEndpoint 129 (Some 64));
     iface := Some 0;
     _should_stop := false;
     _master_fd := Some 3;
     _slave_name := Some "/dev/pts/3"%string;
     _orig_kernel_attached := false |}.

Definition running_session : State := mkState running_bridge [].

(** The same session on a device without OUT endpoint. *)
Definition input_only_session : State :=
  mkState (set_out_ep None running_bridge) [].

Definition two_bytes : bytes := [Byte.x1b; Byte.x40].

(** The terminal has two bytes to read and the USB write fails. *)
Definition env_write_fails : Env :=
  sample_env sample_cfg (Returns false) (Returns tt) (Returns tt)
             (Returns (3, 4)) (Returns true) (Returns two_bytes) (Returns [])
             (Raises exc_io).

(** The USB read fails with an I/O error that is not a timeout. *)
Definition env_read_fails : Env :=
  sample_env sample_cfg (Returns false) (Returns tt) (Returns tt)
             (Returns (3, 4)) (Returns false) (Returns []) (Raises exc_io)
             (Returns 0).

(** The USB read fails with something that is not a [USBError]. *)
Definition exc_value : Exc :=
  mkExc cls_ValueError None "Invalid endpoint address".

Definition env_read_breaks : Env :=
  sample_env sample_cfg (Returns false) (Returns tt) (Returns tt)
             (Returns (3, 4)) (Returns false) (Returns []) (Raises exc_value)
             (Returns 0).

(** No pseudo-terminal can be allocated. *)
Definition env_no_pty : Env :=
  sample_env sample_cfg (Returns false) (Returns tt) (Returns tt)
             (Raises exc_pty) (Returns true) (Returns []) (Returns [])
             (Returns 0).

Definition is_thread_start (ev : Event) : bool :=
  match ev with
  | ev_thread_start _ _ => true
  | _ => false
  end.

(** ** Vocabulary of the forwarding properties *)

(** The arguments of every [dev.write] call of a trace, in order:
    endpoint address, payload, timeout. *)
Definition usb_writes (t : Trace) : list (Z * bytes * Z) :=
  flat_map (fun ev =>
              match ev with
              | ev_usb_write a d tmo _ => [(a, d, tmo)]
              | _ => []
              end) t.

(** The non-empty chunks that [os.read] returned, in order. *)
Definition pty_reads (t : Trace) : list bytes :=
  flat_map (fun ev =>
              match ev with
              | ev_os_read _ _ (Returns d) => if is_empty d then [] else [d]
              | _ => []
              end) t.

(** The arguments of every [os.write] call of a trace, in order:
    descriptor and payload. *)
Definition pty_writes (t : Trace) : list (option Z * bytes) :=
  flat_map (fun ev =>
              match ev with
              | ev_os_write fd d _ => [(fd, d)]
              | _ => []
              end) t.

(** The non-empty packets that [dev.read] returned, in order. *)
Definition usb_reads (t : Trace) : list bytes :=
  flat_map (fun ev =>
              match ev with
              | ev_usb_read _ _ _ (Returns d) => if is_empty d then [] else [d]
              | _ => []
              end) t.

(** The arguments of every [dev.read] call of a trace: endpoint address,
    size, timeout. *)
Definition usb_read_calls (t : Trace) : list (Z * Z * Z) :=
  flat_map (fun ev =>
              match ev with
              | ev_usb_read a n tmo _ => [(a, n, tmo)]
              | _ => []
              end) t.

(** What the terminal loop must have written to the device, given what it
    read from the terminal. *)
Definition expected_usb_writes (b : USBPrinterBridge) (chunks : list bytes)
  : list (Z * bytes * Z) :=
  match out_ep b with
  | Some ep => map (fun d => (bEndpointAddress ep, d, USB_WRITE_TIMEOUT)) chunks
  | None => []
  end.

(** The size the reader loop asks for. *)
Definition reader_bufsize (b : USBPrinterBridge) : Z :=
  match in_ep b with
  | Some ep => match wMaxPacketSize ep with
               | Some n => n
               | None => 512
               end
  | None => 512
  end.

(** The terminal loop left the session object alone and wrote to the
    device exactly what it read from the terminal. *)
Definition writer_forwarded (s s' : State) : Prop :=
  self s' = self s /\
  exists t,
    trace s' = trace s ++ t /\
    usb_writes t = expected_usb_writes (self s) (pty_reads t).

(** The arguments of the reads of the reader loop: the address of the IN
    endpoint, its packet size and the read timeout; none without an IN
    endpoint. *)
Definition reader_call (b : USBPrinterBridge) : option (Z * Z * Z) :=
  match in_ep b with
  | Some ep => Some (bEndpointAddress ep, reader_bufsize b, USB_READ_TIMEOUT)
  | None => None
  end.

(** The reader loop left the session object alone, wrote to the master
    descriptor exactly what it read from the device, and read with the
    arguments of [reader_call]. *)
Definition reader_forwarded (s s' : State) : Prop :=
  self s' = self s /\
  exists t,
    trace s' = trace s ++ t /\
    pty_writes t = map (fun d => (_master_fd (self s), d)) (usb_reads t) /\
    Forall (fun c => reader_call (self s) = Some c) (usb_read_calls t).

(** The same for a loop whose read size was fixed from the session object
    [b]. *)
Definition reader_forwarded_from (b : USBPrinterBridge) (s s' : State) : Prop :=
  self s = b -> reader_forwarded s s'.

(** Calls a forwarding loop may make: transfers, the readiness wait, the
    pause and the log. *)
Definition is_loop_call (ev : Event) : bool :=
  match ev with
  | ev_usb_read _ _ _ _ => true
  | ev_usb_write _ _ _ _ => true
  | ev_os_read _ _ _ => true
  | ev_os_write _ _ _ => true
  | ev_select _ _ _ => true
  | ev_sleep _ => true
  | ev_print _ => true
  | _ => false
  end.

Definition not_loop_call (ev : Event) : bool := negb (is_loop_call ev).

Definition is_claim (ev : Event) : bool :=
  match ev with
  | ev_claim_interface _ _ => true
  | _ => false
  end.

Definition is_print (ev : Event) : bool :=
  match ev with
  | ev_print _ => true
  | _ => false
  end.

(** Calls that acquire or touch a resource of the session: the USB
    interface, the kernel driver, descriptors, threads, transfers. *)
Definition is_session_call (ev : Event) : bool :=
  match ev with
  | ev_get_active_configuration _ => false
  | ev_find _ _ _ => false
  | ev_find_all _ => false
  | ev_set_configuration _ => false
  | ev_print _ => false
  | ev_sleep _ => false
  | _ => true
  end.

(** What may follow the USB release in a teardown: the reattachment of
    the kernel driver and log lines. *)
Definition after_release (ev : Event) : bool :=
  match ev with
  | ev_attach_kernel_driver _ _ => true
  | ev_print _ => true
  | _ => false
  end.

(** A trace that ends in a teardown: a USB release with nothing after it
    but [after_release] events. *)
Definition ends_released (t : Trace) : Prop :=
  exists t1 t2 i r,
    t = t1 ++ ev_release_interface i r :: t2 /\ forallb after_release t2 = true.

(** An environment scripted by the number of terminal reads made so far:
    two chunks, then end of file; the first USB write fails. *)
Definition os_reads_so_far (t : Trace) : nat :=
  List.length (filter (fun ev => match ev with
                                 | ev_os_read _ _ _ => true
                                 | _ => false
                                 end) t).

Definition three_bytes : bytes := [Byte.x41; Byte.x42; Byte.x43].

Definition env_two_chunks : Env :=
  {| env_get_active_configuration := fun _ => Returns sample_cfg;
     env_is_kernel_driver_active := fun _ _ => Returns false;
     env_detach_kernel_driver := fun _ _ => Returns tt;
     env_attach_kernel_driver := fun _ _ => Returns tt;
     env_claim_interface := fun _ _ => Returns tt;
     env_release_interface := fun _ _ => Returns tt;
     env_openpty := fun _ => Returns (3, 4);
     env_ttyname := fun _ _ => Returns "/dev/pts/3"%string;
     env_close := fun _ _ => Returns tt;
     env_thread_start := fun _ _ => Returns tt;
     env_usb_read := fun _ _ _ _ => Returns [];
     env_usb_write := fun t _ data _ =>
       match os_reads_so_far t with
       | 1%nat => Raises exc_io
       | _ => Returns (Z.of_nat (List.length data))
       end;
     env_os_write := fun _ _ data => Returns (Z.of_nat (List.length data));
     env_os_read := fun t _ _ =>
       match os_reads_so_far t with
       | 0%nat => Returns two_bytes
       | 1%nat => Returns three_bytes
       | _ => Returns []
       end;
     env_select := fun _ _ _ => Returns true;
     env_find := fun _ _ _ => Returns (Some (mkDevice [sample_cfg] None));
     env_find_all := fun _ => Returns [mkDevice [sample_cfg] None];
     env_set_configuration := fun _ => Returns tt |}.

(** Variations of an environment. *)
Definition with_os_write (w : Outcome Z) (env : Env) : Env :=
  {| env_get_active_configuration := env_get_active_configuration env;
     env_is_kernel_driver_active := env_is_kernel_driver_active env;
     env_detach_kernel_driver := env_detach_kernel_driver env;
     env_attach_kernel_driver := env_attach_kernel_driver env;
     env_claim_interface := env_claim_interface env;
     env_release_interface := env_release_interface env;
     env_openpty := env_openpty env;
     env_ttyname := env_ttyname env;
     env_close := env_close env;
     env_thread_start := env_thread_start env;
     env_usb_read := env_usb_read env;
     env_usb_write := env_usb_write env;
     env_os_write := fun _ _ _ => w;
     env_os_read := env_os_read env;
     env_select := env_select env;
     env_find := env_find env;
     env_find_all := env_find_all env;
     env_set_configuration := env_set_configuration env |}.

Definition with_ttyname (r : Outcome string) (env : Env) : Env :=
  {| env_get_active_configuration := env_get_active_configuration env;
     env_is_kernel_driver_active := env_is_kernel_driver_active env;
     env_detach_kernel_driver := env_detach_kernel_driver env;
     env_attach_kernel_driver := env_attach_kernel_driver env;
     env_claim_interface := env_claim_interface env;
     env_release_interface := env_release_interface env;
     env_openpty := env_openpty env;
     env_ttyname := fun _ _ => r;
     env_close := env_close env;
     env_thread_start := env_thread_start env;
     env_usb_read := env_usb_read env;
     env_usb_write := env_usb_write env;
     env_os_write := env_os_write env;
     env_os_read := env_os_read env;
     env_select := env_select env;
     env_find := env_find env;
     env_find_all := env_find_all env;
     env_set_configuration := env_set_configuration env |}.

Definition with_find (r : Outcome (option Device)) (all : Outcome (list Device))
  (env : Env) : Env :=
  {| env_get_active_configuration := env_get_active_configuration env;
     env_is_kernel_driver_active := env_is_kernel_driver_active env;
     env_detach_kernel_driver := env_detach_kernel_driver env;
     env_attach_kernel_driver := env_attach_kernel_driver env;
     env_claim_interface := env_claim_interface env;
     env_release_interface := env_release_interface env;
     env_openpty := env_openpty env;
     env_ttyname := env_ttyname env;
     env_close := env_close env;
     env_thread_start := env_thread_start env;
     env_usb_read := env_usb_read env;
     env_usb_write := env_usb_write env;
     env_os_write := env_os_write env;
     env_os_read := env_os_read env;
     env_select := env_select env;
     env_find := fun _ _ _ => r;
     env_find_all := fun _ => all;
     env_set_configuration := env_set_configuration env |}.

Definition exc_ebadf : Exc :=
  mkExc cls_OSError (Some 9) "Bad file descriptor".

Definition exc_no_backend : Exc :=
  mkExc cls_NoBackendError None "No backend available".

(** The device delivers two bytes and the master descriptor is closed. *)
Definition env_master_closed : Env :=
  with_os_write (Raises exc_ebadf)
    (sample_env sample_cfg (Returns false) (Returns tt) (Returns tt)
                (Returns (3, 4)) (Returns true) (Raises exc_ebadf)
                (Returns two_bytes) (Returns 0)).

(** Nothing to read from the terminal yet. *)
Definition env_idle : Env :=
  sample_env sample_cfg (Returns false) (Returns tt) (Returns tt)
             (Returns (3, 4)) (Returns false) (Returns []) (Returns [])
             (Returns 0).

(** How [start] can end on a session that was not stopped: [x] is either
    what the guarded terminal loop gives from a state [s5] that the steps
    before it reached without a release call and without setting the stop
    flag, or a failure of one of those steps. *)
Definition start_outcome (env : Env) (fuel : nat) (s : State)
  (x : Res unit * State) : Prop :=
  (exists s5,
     unchanged is_release _should_stop s s5 /\
     x = try_finally (_pty_writer_loop env fuel) (stop env) s5) \/
  (exists r s',
     x = (r, s') /\ (forall u, r <> Ok u) /\
     unchanged is_release _should_stop s s').

Definition exc_notty : Exc :=
  mkExc cls_OSError (Some 25) "Inappropriate ioctl for device".

(** The pair of descriptors is allocated but the slave has no name. *)
Definition env_no_ttyname : Env := with_ttyname (Raises exc_notty) env_plain.

(** No USB backend, and no device attached. *)
Definition env_no_backend : Env :=
  with_find (Raises exc_no_backend) (Raises exc_no_backend) env_plain.

Definition env_no_device : Env :=
  with_find (Returns None) (Returns []) env_plain.

(** A hub, a device whose descriptors cannot be read, and a printer. *)
Definition hub_device : Device := mkDevice [[[mkInterface 0 0 9 []]]] None.
Definition mute_device : Device := mkDevice [] (Some exc_io).
Definition printer_device : Device := mkDevice [sample_cfg] None.

Definition env_three_devices : Env :=
  with_find (Returns None)
            (Returns [hub_device; mute_device; printer_device]) env_plain.

(** ** Command-line identifiers *)

Section Parsing.

(** Python's builtin [int(s, base)]: the number, or the exception it
    raises. *)
Variable int : string -> Z -> Outcome Z.

Definition parse_vid_pid (s : option string) : Outcome (option Z) :=
  match s with
  | None => Returns None
  | Some s =>
      if String.prefix "0x" s || String.prefix "0X" s then
        match int s 16 with
        | Returns n => Returns (Some n)
        | Raises e => Raises e
        end
      else
        match int s 0 with
        | Returns n => Returns (Some n)
        | Raises e =>
            if isinstance e cls_Exception then Returns None else Raises e
        end
  end.

(** [parse_vid_pid(a) if a else None], for an option of [argparse] whose
    default is [None]: the empty string is false. *)
Definition parse_arg (a : option string) : Outcome (option Z) :=
  match a with
  | None => Returns None
  | Some ""%string => Returns None
  | Some s => parse_vid_pid (Some s)
  end.

Definition lift_outcome {A} (r : Outcome A) : M A :=
  fun s =>
    match r with
    | Returns a => (Ok a, s)
    | Raises e => (Raise e, s)
    end.

(** [main] from the values of [--vid] and [--pid]. *)
Definition main_args (env : Env) (arg_vid arg_pid : option string)
  (fuel : nat) : M Z :=
  vid <- lift_outcome (parse_arg arg_vid) ;;
  pid <- lift_outcome (parse_arg arg_pid) ;;
  main env vid pid fuel.

End Parsing.

(** A stand-in for [int] on the strings of the examples. *)
Definition exc_invalid_literal : Exc :=
  mkExc cls_ValueError None "invalid literal for int()".

Definition sample_int (s : string) (base : Z) : Outcome Z :=
  if String.eqb s "0x04b8" then Returns 1208
  else if String.eqb s "514" then Returns 514
  else Raises exc_invalid_literal.

(** A kernel driver is attached; the backend has no detach. *)
Definition env_detach_unsupported : Env :=
  sample_env sample_cfg (Returns true) (Raises exc_unsupported) (Returns tt)
             (Returns (3, 4)) (Returns true) (Returns []) (Returns [])
             (Returns 0).

(** A kernel driver is attached; the detach fails with an exception that
    is neither a [USBError] nor one of the two the method lets pass. *)
Definition env_detach_breaks : Env :=
  sample_env sample_cfg (Returns true) (Raises exc_value) (Returns tt)
             (Returns (3, 4)) (Returns true) (Returns []) (Returns [])
             (Returns 0).

(** ** Reasoning about computations *)

Lemma events_since_app (s s' : State) (t : Trace) :
  trace s' = trace s ++ t -> events_since s s' = t.
Proof.
  intros H. unfold events_since. rewrite H. clear H.
  induction (trace s) as [|x l IH]; simpl; auto.
Qed.

Lemma events_since_refl (s : State) : events_since s s = [].
Proof. apply events_since_app. rewrite app_nil_r. reflexivity. Qed.

Section Preservation.

Context (R : State -> State -> Prop) `{Frame R}.

Lemma preserves_ret {A} (a : A) : preserves R (ret a).
Proof. intros s. apply frame_refl. Qed.

Lemma preserves_raise {A} (e : Exc) : preserves R (@raise A e).
Proof. intros s. apply frame_refl. Qed.

Lemma preserves_get_self : preserves R get_self.
Proof. intros s. apply frame_refl. Qed.

Lemma preserves_bind {A B} (m : M A) (k : A -> M B) :
  preserves R m -> (forall a, preserves R (k a)) -> preserves R (bind m k).
Proof.
  intros Hm Hk s. unfold bind. specialize (Hm s).
  destruct (m s) as [[a | e |] s1]; simpl in *; auto.
  eapply frame_trans; [exact Hm | apply Hk].
Qed.

Lemma preserves_try_except {A} (m : M A) (h : Exc -> M A) :
  preserves R m -> (forall e, preserves R (h e)) -> preserves R (try_except m h).
Proof.
  intros Hm Hh s. unfold try_except. specialize (Hm s).
  destruct (m s) as [[a | e |] s1]; simpl in *; auto.
  eapply frame_trans; [exact Hm | apply Hh].
Qed.

Lemma preserves_try_finally {A} (m : M A) (f : M unit) :
  preserves R m -> preserves R f -> preserves R (try_finally m f).
Proof.
  intros Hm Hf s. unfold try_finally. specialize (Hm s).
  destruct (m s) as [[a | e |] s1]; simpl in *; auto;
    specialize (Hf s1); destruct (f s1) as [[[] | e' |] s2]; simpl in *;
    eapply frame_trans; eauto.
Qed.

Lemma preserves_while (fuel : nat) (body : M LoopCtl) :
  preserves R body -> preserves R (while_not_should_stop fuel body).
Proof.
  intros Hb. induction fuel as [|n IH]; intros s; simpl;
    destruct (_should_stop (self s)); simpl; try apply frame_refl.
  apply (preserves_bind body); auto.
  intros [ | | ]; auto using preserves_ret.
Qed.

End Preservation.

#[export] Instance unchanged_Frame {A} (p : Event -> bool)
  (g : USBPrinterBridge -> A) : Frame (unchanged p g).
Proof.
  split.
  - intros s. split; reflexivity.
  - intros s1 s2 s3 [H1 H2] [H3 H4]. split; congruence.
Qed.

Lemma unchanged_call {A B} (p : Event -> bool) (g : USBPrinterBridge -> A)
  (f : Trace -> Outcome B) (ev : Outcome B -> Event) :
  (forall r, p (ev r) = false) -> preserves (unchanged p g) (call f ev).
Proof.
  intros Hp s. unfold call, unchanged.
  destruct (f (trace s)) eqn:E; simpl; rewrite filter_app; simpl;
    rewrite Hp, app_nil_r; auto.
Qed.

Lemma unchanged_emit {A} (p : Event -> bool) (g : USBPrinterBridge -> A)
  (ev : Event) :
  p ev = false -> preserves (unchanged p g) (emit ev).
Proof.
  intros Hp s. unfold emit, unchanged. simpl. rewrite filter_app. simpl.
  rewrite Hp, app_nil_r. auto.
Qed.

Lemma unchanged_modify_self {A} (p : Event -> bool) (g : USBPrinterBridge -> A)
  (f : USBPrinterBridge -> USBPrinterBridge) :
  (forall b, g (f b) = g b) -> preserves (unchanged p g) (modify_self f).
Proof. intros Hf s. unfold modify_self, unchanged. simpl. auto. Qed.

#[export] Instance grows_Frame : Frame grows.
Proof. split; unfold grows; intros; lia. Qed.

Lemma grows_call {B} (f : Trace -> Outcome B) (ev : Outcome B -> Event) :
  preserves grows (call f ev).
Proof.
  intros s. unfold call, grows.
  destruct (f (trace s)); simpl; rewrite length_app; simpl; lia.
Qed.

Lemma grows_emit (ev : Event) : preserves grows (emit ev).
Proof. intros s. unfold emit, grows. simpl. rewrite length_app. simpl. lia. Qed.

Lemma grows_modify_self (f : USBPrinterBridge -> USBPrinterBridge) :
  preserves grows (modify_self f).
Proof. intros s. unfold modify_self, grows. simpl. lia. Qed.

#[export] Instance extends_Frame : Frame extends.
Proof.
  split.
  - intros s. exists []. rewrite app_nil_r. reflexivity.
  - intros s1 s2 s3 [t Ht] [t' Ht']. exists (t ++ t').
    rewrite Ht', Ht, app_assoc. reflexivity.
Qed.

Lemma extends_call {B} (f : Trace -> Outcome B) (ev : Outcome B -> Event) :
  preserves extends (call f ev).
Proof.
  intros s. unfold call, extends.
  destruct (f (trace s)); simpl; eauto.
Qed.

Lemma extends_emit (ev : Event) : preserves extends (emit ev).
Proof. intros s. unfold emit, extends. simpl. eauto. Qed.

Lemma extends_modify_self (f : USBPrinterBridge -> USBPrinterBridge) :
  preserves extends (modify_self f).
Proof.
  intros s. unfold modify_self, extends. simpl.
  exists []. rewrite app_nil_r. reflexivity.
Qed.

(** One step of a preservation proof: split a combinator, or look into a
    branch. *)
Ltac preserves_step :=
  match goal with
  | |- preserves ?R (bind _ _) => apply (@preserves_bind R _); [ | intro ]
  | |- preserves ?R (try_except _ _) =>
      apply (@preserves_try_except R _); [ | intro ]
  | |- preserves ?R (try_finally _ _) => apply (@preserves_try_finally R _)
  | |- preserves ?R (ret _) => apply (@preserves_ret R _)
  | |- preserves ?R (raise _) => apply (@preserves_raise R _)
  | |- preserves ?R get_self => apply (@preserves_get_self R _)
  | |- preserves ?R (while_not_should_stop _ _) =>
      apply (@preserves_while R _)
  | |- preserves _ (print _) => unfold print
  | |- preserves _ (sleep _) => unfold sleep
  | |- preserves _ (os_read _ _ _) => unfold os_read
  | |- preserves (unchanged _ _) (call _ _) =>
      apply unchanged_call; intro; reflexivity
  | |- preserves (unchanged _ _) (emit _) => apply unchanged_emit; reflexivity
  | |- preserves (unchanged _ _) (modify_self _) =>
      apply unchanged_modify_self; intro; reflexivity
  | |- preserves extends (call _ _) => apply extends_call
  | |- preserves extends (emit _) => apply extends_emit
  | |- preserves extends (modify_self _) => apply extends_modify_self
  | |- preserves grows (call _ _) => apply grows_call
  | |- preserves grows (emit _) => apply grows_emit
  | |- preserves grows (modify_self _) => apply grows_modify_self
  | |- preserves _ (if ?c then _ else _) => destruct c
  | |- preserves _ (match ?x with _ => _ end) => destruct x
  end.

Ltac preserves_tac := repeat preserves_step.

Lemma run_ops_snoc env ops op s :
  run_ops env (ops ++ [op]) s = snd (run_op env op (run_ops env ops s)).
Proof. unfold run_ops. rewrite fold_left_app. reflexivity. Qed.

Lemma existsb_filter {A} (p : A -> bool) (l l' : list A) :
  filter p l = filter p l' -> existsb p l = existsb p l'.
Proof.
  intros H.
  assert (E : forall k, existsb p k = negb (is_empty (filter p k))).
  { induction k as [|x k IH]; simpl; auto. destruct (p x); simpl; auto. }
  rewrite !E, H. reflexivity.
Qed.

#[export] Instance keeps_detach_recorded_Frame : Frame keeps_detach_recorded.
Proof. split; unfold keeps_detach_recorded; auto. Qed.

Lemma unchanged_keeps_detach_recorded {A} (m : M A) :
  preserves (unchanged is_detach_ok _orig_kernel_attached) m ->
  preserves keeps_detach_recorded m.
Proof.
  intros Hm s Hs. destruct (Hm s) as [Ht Hg].
  unfold detach_recorded, detached_during_claim in *.
  rewrite Hg, Hs. symmetry. apply existsb_filter. exact Ht.
Qed.

Lemma detached_during_claim_app t t' :
  detached_during_claim (t ++ t') =
  detached_during_claim t || detached_during_claim t'.
Proof. apply existsb_app. Qed.

Lemma _claim_keeps_detach_recorded env :
  preserves keeps_detach_recorded (_claim env).
Proof.
  intros s Hs. unfold detach_recorded in *.
  unfold _claim, bind, try_except, call, get_self, modify_self, print, emit, ret, raise.
  simpl.
  destruct (env_is_kernel_driver_active env (trace s) (iface (self s)))
    as [[|] | e1]; simpl.
  - destruct (env_detach_kernel_driver env _ (iface (self s))) as [[] | e2]; simpl.
    + match goal with |- context [env_claim_interface env ?t ?i] =>
        destruct (env_claim_interface env t i) end; simpl;
        rewrite <- !app_assoc, !detached_during_claim_app; simpl;
        rewrite orb_true_r; reflexivity.
    + destruct (isinstance e2 cls_USBError); simpl.
      * match goal with |- context [env_claim_interface env ?t ?i] =>
          destruct (env_claim_interface env t i) end; simpl;
          rewrite <- !app_assoc, !detached_during_claim_app; simpl;
          rewrite orb_false_r; exact Hs.
      * destruct (isinstance e2 cls_NotImplementedError || isinstance e2 cls_AttributeError);
          simpl.
        -- match goal with |- context [env_claim_interface env ?t ?i] =>
             destruct (env_claim_interface env t i) end; simpl;
             rewrite <- !app_assoc, !detached_during_claim_app; simpl;
             rewrite orb_false_r; exact Hs.
        -- rewrite <- !app_assoc, !detached_during_claim_app; simpl;
             rewrite orb_false_r; exact Hs.
  - match goal with |- context [env_claim_interface env ?t ?i] =>
      destruct (env_claim_interface env t i) end; simpl;
      rewrite <- ?app_assoc, !detached_during_claim_app; simpl;
      rewrite orb_false_r; exact Hs.
  - destruct (isinstance e1 cls_NotImplementedError || isinstance e1 cls_AttributeError);
      simpl.
    + match goal with |- context [env_claim_interface env ?t ?i] =>
        destruct (env_claim_interface env t i) end; simpl;
        rewrite <- ?app_assoc, !detached_during_claim_app; simpl;
        rewrite orb_false_r; exact Hs.
    + rewrite !detached_during_claim_app; simpl;
        rewrite orb_false_r; exact Hs.
Qed.

Section DetachFrame.

Variable env : Env.

Local Abbreviation R := (unchanged is_detach_ok _orig_kernel_attached).

Lemma _find_endpoints_detach : preserves R (_find_endpoints env).
Proof. unfold _find_endpoints. preserves_tac. Qed.

Lemma _release_detach : preserves R (_release env).
Proof. unfold _release. preserves_tac. Qed.

Lemma _create_pty_detach : preserves R (_create_pty env).
Proof. unfold _create_pty. preserves_tac. Qed.

Lemma stop_detach : preserves R (stop env).
Proof. unfold stop. preserves_tac; apply _release_detach. Qed.

Lemma _usb_reader_loop_detach fuel : preserves R (_usb_reader_loop env fuel).
Proof. unfold _usb_reader_loop, usb_reader_body. preserves_tac. Qed.

Lemma _pty_writer_loop_detach fuel : preserves R (_pty_writer_loop env fuel).
Proof. unfold _pty_writer_loop, pty_writer_body. preserves_tac. Qed.

Lemma start_keeps_detach_recorded fuel :
  preserves keeps_detach_recorded (start env fuel).
Proof.
  unfold start.
  repeat match goal with
         | |- preserves _ (_claim _) => apply _claim_keeps_detach_recorded
         | |- preserves _ (bind _ _) =>
             apply (@preserves_bind keeps_detach_recorded _); [ | intro ]
         | |- preserves keeps_detach_recorded _ =>
             apply unchanged_keeps_detach_recorded
         end;
    preserves_tac;
    auto using _find_endpoints_detach, _create_pty_detach,
      _pty_writer_loop_detach, stop_detach.
Qed.

Lemma run_op_keeps_detach_recorded op :
  preserves keeps_detach_recorded (run_op env op).
Proof.
  destruct op; simpl;
    auto using _claim_keeps_detach_recorded, start_keeps_detach_recorded,
      unchanged_keeps_detach_recorded, _find_endpoints_detach, _release_detach,
      _create_pty_detach, stop_detach, _usb_reader_loop_detach,
      _pty_writer_loop_detach.
Qed.

Lemma run_ops_detach_recorded ops :
  detach_recorded (run_ops env ops fresh_session).
Proof.
  induction ops as [|op ops IH] using rev_ind.
  - reflexivity.
  - rewrite run_ops_snoc. apply run_op_keeps_detach_recorded. exact IH.
Qed.

End DetachFrame.

(** ** Release *)

(** Every modelled exception is an instance of [Exception]. *)
Lemma isinstance_Exception (e : Exc) : isinstance e cls_Exception = true.
Proof. destruct e as [c n m]. destruct c; reflexivity. Qed.

(** What [_release] does from any state: it returns, leaves the session
    object as it is, and adds the release call and, when the flag is set,
    the reattach call. *)
Lemma _release_run env s :
  let i := iface (self s) in
  let t1 := trace s ++ [ev_release_interface i (env_release_interface env (trace s) i)] in
  _release env s =
  (Ok tt,
   mkState (self s)
     (if _orig_kernel_attached (self s)
      then t1 ++ [ev_attach_kernel_driver i (env_attach_kernel_driver env t1 i)]
      else t1)).
Proof.
  unfold _release, bind, try_except, call, get_self, ret. simpl.
  destruct (env_release_interface env (trace s) (iface (self s))) as [[] | e1];
    simpl; rewrite ?isinstance_Exception;
    destruct (_orig_kernel_attached (self s)); simpl; try reflexivity;
    match goal with
    | |- context [env_attach_kernel_driver env ?t ?i] =>
        destruct (env_attach_kernel_driver env t i) as [[] | e2]
    end; simpl; rewrite ?isinstance_Exception; reflexivity.
Qed.

(** C6: [_release] never raises.  From every state, whatever the release
    and reattach calls do, it returns normally, always attempts the
    USB-level release first, and attempts the kernel-driver reattachment
    exactly when [_orig_kernel_attached] is set; in every state a session
    can reach from its construction, that flag is set exactly when a
    kernel driver detach succeeded during a claim. *)
Theorem release_never_raises env :
  (forall s,
     let i := iface (self s) in
     let t1 := trace s ++
               [ev_release_interface i (env_release_interface env (trace s) i)] in
     fst (_release env s) = Ok tt /\
     self (snd (_release env s)) = self s /\
     events_since s (snd (_release env s)) =
       ev_release_interface i (env_release_interface env (trace s) i) ::
       (if _orig_kernel_attached (self s)
        then [ev_attach_kernel_driver i (env_attach_kernel_driver env t1 i)]
        else [])) /\
  (forall ops,
     let s := run_ops env ops fresh_session in
     _orig_kernel_attached (self s) = detached_during_claim (trace s)).
Proof.
  split.
  - intros s i t1. rewrite _release_run. simpl. repeat split.
    apply events_since_app. simpl.
    destruct (_orig_kernel_attached (self s)); simpl.
    + rewrite <- app_assoc. reflexivity.
    + reflexivity.
  - intros ops. apply run_ops_detach_recorded.
Qed.

(** ** Stop *)

Lemma stop_when_stopped env s :
  _should_stop (self s) = true -> stop env s = (Ok tt, s).
Proof.
  intros H. unfold stop, bind, get_self. simpl. rewrite H. reflexivity.
Qed.

(** The first [stop] of a session, step by step. *)
Lemma stop_run env s :
  _should_stop (self s) = false ->
  let t1 := trace s ++ [ev_print log_stopping] in
  let t2 := match _master_fd (self s) with
            | Some fd =>
                if truthy_fd (Some fd)
                then t1 ++ [ev_close fd (env_close env t1 fd)]
                else t1
            | None => t1
            end in
  let b1 := set_should_stop true (self s) in
  let s3 := snd (_release env (mkState b1 t2)) in
  stop env s = (Ok tt, mkState b1 (trace s3 ++ [ev_print log_stopped])).
Proof.
  intros H. cbv zeta.
  unfold stop, bind, get_self, modify_self, print, emit, try_except, call, ret.
  simpl. rewrite H. simpl.
  destruct (_master_fd (self s)) as [fd | ]; simpl.
  - destruct (negb (fd =? 0)); simpl.
    + destruct (env_close env (trace s ++ [ev_print log_stopping]) fd)
        as [[] | e]; simpl; rewrite ?isinstance_Exception;
        rewrite _release_run; simpl; reflexivity.
    + rewrite _release_run; simpl; reflexivity.
  - rewrite _release_run; simpl; reflexivity.
Qed.

Lemma stop_sets_flag env s : _should_stop (self (snd (stop env s))) = true.
Proof.
  destruct (_should_stop (self s)) eqn:H.
  - rewrite stop_when_stopped; auto.
  - rewrite stop_run; auto.
Qed.

(** C3: [stop] is idempotent.  After a call of [stop], from any state and
    whatever that call met, a second call returns normally and changes
    nothing: the session object and the trace are as the first call left
    them, so the master descriptor is not closed again and the interface
    claim is not released again. *)
Theorem stop_idempotent env env' s :
  let s1 := snd (stop env s) in
  stop env' s1 = (Ok tt, s1) /\
  events_since s1 (snd (stop env' s1)) = [] /\
  filter is_close (trace (snd (stop env' s1))) = filter is_close (trace s1) /\
  filter is_release (trace (snd (stop env' s1))) = filter is_release (trace s1).
Proof.
  intros s1.
  assert (E : stop env' s1 = (Ok tt, s1))
    by (apply stop_when_stopped, stop_sets_flag).
  rewrite E. simpl. repeat split. apply events_since_refl.
Qed.

Lemma stop_Ok env s : fst (stop env s) = Ok tt.
Proof.
  destruct (_should_stop (self s)) eqn:H.
  - rewrite stop_when_stopped; auto.
  - rewrite stop_run; auto.
Qed.

Lemma stop_closes_nothing env s :
  _master_fd (self s) = None ->
  filter is_close (events_since s (snd (stop env s))) = [].
Proof.
  intros Hfd. destruct (_should_stop (self s)) eqn:H.
  - rewrite stop_when_stopped by auto. simpl.
    rewrite events_since_refl. reflexivity.
  - rewrite stop_run by auto. simpl.
    rewrite Hfd. rewrite _release_run. simpl.
    destruct (_orig_kernel_attached (self s));
      (erewrite events_since_app;
       [ | simpl; rewrite <- !app_assoc; reflexivity ]);
      reflexivity.
Qed.

Lemma stop_releases env s :
  _should_stop (self s) = false ->
  exists r,
    In (ev_release_interface (iface (self s)) r)
       (events_since s (snd (stop env s))).
Proof.
  intros H. rewrite stop_run by auto. simpl.
  rewrite _release_run. simpl.
  destruct (_master_fd (self s)) as [fd | ];
    [ destruct (negb (fd =? 0)) | ];
    destruct (_orig_kernel_attached (self s));
    eexists;
    (erewrite events_since_app;
     [ | simpl; rewrite <- !app_assoc; reflexivity ]);
    simpl; eauto 10.
Qed.

(** C10: [stop] never raises.  From every state and against every
    environment it returns normally with the stop flag set; when the
    master descriptor is still [None] it closes no descriptor; and on its
    first call the release path is run whatever the close of the
    descriptor did. *)
Theorem stop_never_raises env s :
  fst (stop env s) = Ok tt /\
  _should_stop (self (snd (stop env s))) = true /\
  (_master_fd (self s) = None ->
   filter is_close (events_since s (snd (stop env s))) = []) /\
  (_should_stop (self s) = false ->
   exists r,
     In (ev_release_interface (iface (self s)) r)
        (events_since s (snd (stop env s)))).
Proof.
  split; [ apply stop_Ok | ].
  split; [ apply stop_sets_flag | ].
  split; [ apply stop_closes_nothing | apply stop_releases ].
Qed.

(** A session stopped before it was started: nothing to close, and the
    release is still attempted. *)
Lemma stop_never_raises_witness :
  stop env_plain fresh_session =
    (Ok tt,
     mkState (set_should_stop true __init__)
       [ev_print log_stopping; ev_release_interface None (Returns tt);
        ev_print log_stopped]) /\
  filter is_close
    (events_since fresh_session (snd (stop env_plain fresh_session))) = [] /\
  exists r,
    In (ev_release_interface None r)
       (events_since fresh_session (snd (stop env_plain fresh_session))).
Proof.
  destruct (stop_never_raises env_plain fresh_session) as (_ & _ & Hc & Hr).
  split; [ reflexivity | ].
  split; [ exact (Hc eq_refl) | exact (Hr eq_refl) ].
Defined.

(** ** The stop flag *)

#[export] Instance stays_stopped_Frame : Frame stays_stopped.
Proof.
  split.
  - intros s _. apply frame_refl.
  - intros s1 s2 s3 H12 H23 H1.
    pose proof (H12 H1) as U12. destruct U12 as [_ Hflag].
    eapply frame_trans; [ exact (H12 H1) | apply H23; congruence ].
Qed.

Lemma unchanged_stays_stopped {A} (m : M A) :
  preserves (unchanged is_forwarding _should_stop) m ->
  preserves stays_stopped m.
Proof. intros Hm s _. apply Hm. Qed.

(** A loop guarded by the flag does nothing once the flag is set. *)
Lemma while_when_stopped fuel body s :
  _should_stop (self s) = true ->
  while_not_should_stop fuel body s = (Ok tt, s).
Proof. intros H. destruct fuel; simpl; rewrite H; reflexivity. Qed.

Lemma while_stays_stopped fuel body :
  preserves stays_stopped (while_not_should_stop fuel body).
Proof.
  intros s H. rewrite while_when_stopped by exact H. apply frame_refl.
Qed.

Lemma stop_stays_stopped env : preserves stays_stopped (stop env).
Proof.
  intros s H. rewrite stop_when_stopped by exact H. apply frame_refl.
Qed.

Section StopFrame.

Variable env : Env.

Local Abbreviation R := (unchanged is_forwarding _should_stop).

Lemma _find_endpoints_forwarding : preserves R (_find_endpoints env).
Proof. unfold _find_endpoints. preserves_tac. Qed.

Lemma _claim_forwarding : preserves R (_claim env).
Proof. unfold _claim. preserves_tac. Qed.

Lemma _release_forwarding : preserves R (_release env).
Proof. unfold _release. preserves_tac. Qed.

Lemma _create_pty_forwarding : preserves R (_create_pty env).
Proof. unfold _create_pty. preserves_tac. Qed.

Lemma _usb_reader_loop_stays_stopped fuel :
  preserves stays_stopped (_usb_reader_loop env fuel).
Proof.
  unfold _usb_reader_loop.
  apply (@preserves_bind stays_stopped _);
    [ apply (@preserves_get_self stays_stopped _) | intro ].
  apply while_stays_stopped.
Qed.

Lemma _pty_writer_loop_stays_stopped fuel :
  preserves stays_stopped (_pty_writer_loop env fuel).
Proof.
  unfold _pty_writer_loop.
  apply (@preserves_bind stays_stopped _);
    [ apply (@preserves_get_self stays_stopped _) | intro ].
  apply while_stays_stopped.
Qed.

Lemma start_stays_stopped fuel : preserves stays_stopped (start env fuel).
Proof.
  unfold start.
  repeat match goal with
         | |- preserves _ (try_finally _ _) =>
             apply (@preserves_try_finally stays_stopped _);
             [ apply _pty_writer_loop_stays_stopped | apply stop_stays_stopped ]
         | |- preserves _ (bind _ _) =>
             apply (@preserves_bind stays_stopped _); [ | intro ]
         | |- preserves stays_stopped _ => apply unchanged_stays_stopped
         end;
    preserves_tac;
    auto using _find_endpoints_forwarding, _claim_forwarding,
      _create_pty_forwarding.
Qed.

Lemma run_op_stays_stopped op : preserves stays_stopped (run_op env op).
Proof.
  destruct op; simpl;
    auto using start_stays_stopped, stop_stays_stopped,
      _usb_reader_loop_stays_stopped, _pty_writer_loop_stays_stopped,
      unchanged_stays_stopped, _find_endpoints_forwarding, _claim_forwarding,
      _release_forwarding, _create_pty_forwarding.
Qed.

Lemma run_ops_stays_stopped ops s : stays_stopped s (run_ops env ops s).
Proof.
  induction ops as [|op ops IH] using rev_ind.
  - apply frame_refl.
  - rewrite run_ops_snoc.
    eapply frame_trans; [ exact IH | apply run_op_stays_stopped ].
Qed.

End StopFrame.

(** C9: the stop state is monotonic and irreversible.  Once the stop flag
    of a session is set, after any sequence of its operations (whatever
    each returns or raises) the flag is still set and no forwarding call
    (USB read or write, terminal read or write, readiness wait) has been
    made; both forwarding loops return at once without an iteration.  A
    cleared flag only comes with a newly constructed session object. *)
Theorem stop_flag_irreversible env ops s :
  _should_stop (self s) = true ->
  let s' := run_ops env ops s in
  _should_stop (self s') = true /\
  filter is_forwarding (trace s') = filter is_forwarding (trace s) /\
  (forall fuel, _pty_writer_loop env fuel s' = (Ok tt, s')) /\
  (forall fuel, _usb_reader_loop env fuel s' = (Ok tt, s')) /\
  _should_stop (self fresh_session) = false.
Proof.
  intros H s'.
  destruct (run_ops_stays_stopped env ops s H) as [Ht Hf].
  fold s' in Ht, Hf.
  assert (H' : _should_stop (self s') = true) by congruence.
  repeat split; auto.
  - intros fuel. unfold _pty_writer_loop, bind, get_self. simpl.
    apply while_when_stopped. exact H'.
  - intros fuel. unfold _usb_reader_loop, bind, get_self. simpl.
    apply while_when_stopped. exact H'.
Qed.

Lemma stop_flag_irreversible_witness :
  let s := snd (stop env_plain fresh_session) in
  let s' := run_ops env_plain [op_start 2; op_claim; op_pty_writer_loop 5] s in
  _should_stop (self s) = true /\
  _should_stop (self s') = true /\
  filter is_forwarding (trace s') = filter is_forwarding (trace s).
Proof.
  intros s s'.
  split; [ reflexivity | ].
  pose proof (stop_flag_irreversible env_plain
                [op_start 2; op_claim; op_pty_writer_loop 5] s eq_refl) as W.
  split; [ exact (proj1 W) | exact (proj1 (proj2 W)) ].
Defined.

(** ** Endpoint resolution *)

Lemma land_128 (a : Z) : Z.land a 128 = if Z.testbit a 7 then 128 else 0.
Proof.
  apply Z.bits_inj'. intros n Hn.
  rewrite Z.land_spec.
  change 128 with (2 ^ 7).
  rewrite Z.pow2_bits_eqb by lia.
  destruct (Z.eqb_spec 7 n) as [<- | Hne].
  - rewrite andb_true_r.
    destruct (Z.testbit a 7); [ | rewrite Z.bits_0; reflexivity ].
    rewrite Z.pow2_bits_eqb by lia. reflexivity.
  - rewrite andb_false_r.
    destruct (Z.testbit a 7); [ | rewrite Z.bits_0; reflexivity ].
    rewrite Z.pow2_bits_eqb by lia.
    symmetry. apply Z.eqb_neq. exact Hne.
Qed.

Lemma scan_endpoint_spec acc ep :
  scan_endpoint acc ep =
  (if is_out_endpoint ep then Some ep else fst acc,
   if is_in_endpoint ep then Some ep else snd acc).
Proof.
  destruct acc as [o i].
  unfold scan_endpoint, endpoint_direction, is_out_endpoint, is_in_endpoint,
    ENDPOINT_OUT, ENDPOINT_IN.
  rewrite land_128.
  destruct (Z.testbit (bEndpointAddress ep) 7); reflexivity.
Qed.

Lemma find_snoc {A} (p : A -> bool) (l : list A) (x : A) :
  find p (l ++ [x]) =
  match find p l with
  | Some y => Some y
  | None => if p x then Some x else None
  end.
Proof.
  induction l as [|y l IH]; simpl; [ reflexivity | ].
  destruct (p y); auto.
Qed.

Lemma fold_scan_endpoint eps acc :
  fold_left scan_endpoint eps acc =
  (match last_such is_out_endpoint eps with
   | Some ep => Some ep
   | None => fst acc
   end,
   match last_such is_in_endpoint eps with
   | Some ep => Some ep
   | None => snd acc
   end).
Proof.
  revert acc. induction eps as [|ep eps IH]; intros acc; simpl.
  - destruct acc; reflexivity.
  - rewrite IH, scan_endpoint_spec. unfold last_such. simpl.
    rewrite !find_snoc. simpl.
    destruct (find is_out_endpoint (rev eps)), (find is_in_endpoint (rev eps));
      destruct (is_out_endpoint ep), (is_in_endpoint ep); reflexivity.
Qed.

Lemma scan_endpoints_spec eps :
  scan_endpoints eps =
  (last_such is_out_endpoint eps, last_such is_in_endpoint eps).
Proof.
  unfold scan_endpoints. rewrite fold_scan_endpoint. simpl.
  destruct (last_such is_out_endpoint eps), (last_such is_in_endpoint eps);
    reflexivity.
Qed.

Lemma find_first {A} (p : A -> bool) (l1 l2 : list A) (x : A) :
  Forall (fun y => p y = false) l1 -> p x = true ->
  find p (l1 ++ x :: l2) = Some x.
Proof.
  intros Hl Hx. induction Hl as [|y l Hy Hl IH]; simpl.
  - rewrite Hx. reflexivity.
  - rewrite Hy. exact IH.
Qed.

Lemma find_none_Forall {A} (p : A -> bool) (l : list A) :
  Forall (fun y => p y = false) l -> find p l = None.
Proof.
  intros Hl. induction Hl as [|y l Hy Hl IH]; simpl; [ reflexivity | ].
  rewrite Hy. exact IH.
Qed.

Lemma select_interface_first cfg l1 intf l2 :
  cfg_iter cfg = l1 ++ intf :: l2 ->
  bInterfaceClass intf = 7 ->
  Forall (fun i => bInterfaceClass i <> 7) l1 ->
  select_interface cfg = Some intf.
Proof.
  intros Hcfg Hc Hl. unfold select_interface. rewrite Hcfg.
  rewrite find_first; auto.
  - eapply Forall_impl; [ | exact Hl ]. intros i Hi. apply Z.eqb_neq. exact Hi.
  - apply Z.eqb_eq. exact Hc.
Qed.

Lemma select_interface_fallback cfg :
  Forall (fun i => bInterfaceClass i <> 7) (cfg_iter cfg) ->
  select_interface cfg = cfg_getitem cfg 0 0.
Proof.
  intros Hl. unfold select_interface. rewrite find_none_Forall; auto.
  eapply Forall_impl; [ | exact Hl ]. intros i Hi. apply Z.eqb_neq. exact Hi.
Qed.

Lemma _find_endpoints_run env s cfg intf :
  env_get_active_configuration env (trace s) = Returns cfg ->
  select_interface cfg = Some intf ->
  _find_endpoints env s =
  (Ok tt,
   mkState
     (set_in_ep (last_such is_in_endpoint (endpoints intf))
        (set_out_ep (last_such is_out_endpoint (endpoints intf))
           (set_iface (Some (bInterfaceNumber intf)) (self s))))
     (trace s ++ [ev_get_active_configuration (Returns cfg)])).
Proof.
  intros Hcfg Hsel.
  unfold _find_endpoints, bind, call, modify_self, ret. simpl.
  rewrite Hcfg, Hsel. simpl. rewrite scan_endpoints_spec. reflexivity.
Qed.

(** Case analysis on whatever the computation inspects next. *)
Ltac case_step :=
  match goal with
  | |- context [match ?x with _ => _ end] =>
      lazymatch x with
      | context [match _ with _ => _ end] => fail
      | _ => destruct x
      end
  end.

(** Sequencing, one step at a time. *)
Lemma bind_Ok {A B} (m : M A) (k : A -> M B) s a s1 :
  m s = (Ok a, s1) -> bind m k s = k a s1.
Proof. intros H. unfold bind. rewrite H. reflexivity. Qed.

Lemma bind_Raise {A B} (m : M A) (k : A -> M B) s e s1 :
  m s = (Raise e, s1) -> bind m k s = (Raise e, s1).
Proof. intros H. unfold bind. rewrite H. reflexivity. Qed.

(** [_claim] always asks whether a kernel driver is active, so it always
    adds to the trace. *)
Lemma _claim_adds env s :
  (List.length (trace s) < List.length (trace (snd (_claim env s))))%nat.
Proof.
  unfold _claim, try_except, bind, get_self, call, modify_self, print, emit,
    ret, raise.
  repeat (simpl; case_step); simpl; rewrite ?length_app; simpl; lia.
Qed.

Lemma bind_adds {A B} (m : M A) (k : A -> M B) :
  (forall s, (List.length (trace s) < List.length (trace (snd (m s))))%nat) ->
  (forall a, preserves grows (k a)) ->
  forall s, (List.length (trace s) < List.length (trace (snd (bind m k s))))%nat.
Proof.
  intros Hm Hk s. unfold bind. specialize (Hm s).
  destruct (m s) as [[a | e |] s1]; simpl in *; auto.
  specialize (Hk a s1). unfold grows in Hk. lia.
Qed.

Section Growth.

Variable env : Env.

Lemma _release_grows : preserves grows (_release env).
Proof. unfold _release. preserves_tac. Qed.

Lemma _create_pty_grows : preserves grows (_create_pty env).
Proof. unfold _create_pty. preserves_tac. Qed.

Lemma stop_grows : preserves grows (stop env).
Proof. unfold stop. preserves_tac. apply _release_grows. Qed.

Lemma _pty_writer_loop_grows fuel : preserves grows (_pty_writer_loop env fuel).
Proof. unfold _pty_writer_loop, pty_writer_body. preserves_tac. Qed.

End Growth.

(** C4: endpoint resolution.  The interface selected is the first one, in
    the iteration order of the active configuration, whose class is 7,
    and is [cfg[(0,0)]] when there is none.  With an interface selected,
    [_find_endpoints] returns with [iface] its number, [in_ep] the last
    endpoint of the scan whose address has bit 7 set and [out_ep] the
    last one whose address has it clear; [start] then stops right there
    with the no-endpoints error exactly when both are absent. *)
Theorem endpoint_resolution env s cfg :
  env_get_active_configuration env (trace s) = Returns cfg ->
  (forall l1 intf l2,
     cfg_iter cfg = l1 ++ intf :: l2 ->
     bInterfaceClass intf = 7 ->
     Forall (fun i => bInterfaceClass i <> 7) l1 ->
     select_interface cfg = Some intf) /\
  (Forall (fun i => bInterfaceClass i <> 7) (cfg_iter cfg) ->
   select_interface cfg = cfg_getitem cfg 0 0) /\
  (forall intf,
     select_interface cfg = Some intf ->
     let s1 := snd (_find_endpoints env s) in
     fst (_find_endpoints env s) = Ok tt /\
     iface (self s1) = Some (bInterfaceNumber intf) /\
     in_ep (self s1) = last_such is_in_endpoint (endpoints intf) /\
     out_ep (self s1) = last_such is_out_endpoint (endpoints intf) /\
     forall fuel,
       start env fuel s = (Raise NoEndpointsFound, s1) <->
       in_ep (self s1) = None /\ out_ep (self s1) = None).
Proof.
  intros Hcfg.
  split; [ intros; eapply select_interface_first; eauto | ].
  split; [ apply select_interface_fallback | ].
  intros intf Hsel s1.
  pose proof (_find_endpoints_run env s cfg intf Hcfg Hsel) as Hrun.
  subst s1. rewrite Hrun. simpl.
  repeat (split; [ reflexivity | ]).
  intros fuel. unfold start.
  rewrite (bind_Ok _ _ _ _ _ Hrun).
  erewrite bind_Ok by reflexivity. simpl.
  destruct (last_such is_out_endpoint (endpoints intf)) as [o | ] eqn:Ho;
    [ | destruct (last_such is_in_endpoint (endpoints intf)) as [i | ] eqn:Hi ].
  3:{ split; auto. }
  all: erewrite bind_Ok by reflexivity.
  all: split; [ intros Hst | intros [? ?]; discriminate ].
  all: exfalso.
  all: match goal with
       | Hst : bind (_claim ?e) ?k ?s0 = _ |- _ =>
           assert (G : (List.length (trace s0) <
                        List.length (trace (snd (bind (_claim e) k s0))))%nat)
       end.
  all: try (apply bind_adds; [ apply _claim_adds | intro ];
            preserves_tac;
            auto using _create_pty_grows, _pty_writer_loop_grows, stop_grows).
  all: rewrite Hst in G; simpl in G; lia.
Qed.

Lemma endpoint_resolution_witness :
  env_get_active_configuration env_plain (trace fresh_session) =
    Returns sample_cfg /\
  select_interface sample_cfg =
    Some (mkInterface 0 0 7 [mkEndpoint 1 (Some 64); mkEndpoint 129 (Some 64)]) /\
  in_ep (self (snd (_find_endpoints env_plain fresh_session))) =
    Some (mkEndpoint 129 (Some 64)) /\
  out_ep (self (snd (_find_endpoints env_plain fresh_session))) =
    Some (mkEndpoint 1 (Some 64)).
Proof.
  split; [ reflexivity | ]. split; [ reflexivity | ].
  destruct (endpoint_resolution env_plain fresh_session sample_cfg eq_refl)
    as (_ & _ & H).
  destruct (H _ eq_refl) as (_ & _ & Hin & Hout & _).
  split; [ exact Hin | exact Hout ].
Defined.

(** Two IN endpoints: the later one wins; a configuration without a
    printer interface falls back to its first interface. *)
Example scan_keeps_last_seen :
  scan_endpoints [mkEndpoint 129 (Some 64); mkEndpoint 2 (Some 64);
                  mkEndpoint 131 (Some 8)] =
  (Some (mkEndpoint 2 (Some 64)), Some (mkEndpoint 131 (Some 8))).
Proof. reflexivity. Qed.

Example select_interface_no_printer :
  select_interface [[mkInterface 0 0 3 []; mkInterface 0 1 3 []];
                    [mkInterface 1 0 8 []]] =
  Some (mkInterface 0 0 3 []).
Proof. reflexivity. Qed.

Example select_interface_second_is_printer :
  select_interface [[mkInterface 0 0 3 []]; [mkInterface 1 0 7 []];
                    [mkInterface 2 0 7 []]] =
  Some (mkInterface 1 0 7 []).
Proof. reflexivity. Qed.

(** ** Claim *)

(** C7, as the code has it: error handling of [_claim].  From every
    state: when the kernel-driver query raises [NotImplementedError] (or
    [AttributeError]) the method goes on to the USB-level claim as if no
    driver were attached; any other exception of the query leaves the
    method as it is.  When the driver is attached and its detach raises,
    the flag is left clear and what follows depends on the exception: a
    [USBError] is logged and the method goes on to the USB-level claim; a
    [NotImplementedError] or an [AttributeError] is passed over without a
    log line and the method goes on to the USB-level claim; anything else
    leaves the method as it is, before the USB-level claim.  The method
    also goes on to the USB-level claim after a query answering no and
    after a successful detach.  The USB-level claim decides the result: if
    it raises, [_claim] raises the same exception, and [start], past
    endpoint resolution, raises it too without going further. *)
Theorem claim_error_handling env s :
  let b := self s in
  let i := iface b in
  (forall e,
     env_is_kernel_driver_active env (trace s) i = Raises e ->
     isinstance e cls_NotImplementedError || isinstance e cls_AttributeError
       = true ->
     _claim env s =
     usb_claim_at env b (trace s ++ [ev_is_kernel_driver_active i (Raises e)])) /\
  (forall e,
     env_is_kernel_driver_active env (trace s) i = Returns true ->
     env_detach_kernel_driver env
       (trace s ++ [ev_is_kernel_driver_active i (Returns true)]) i = Raises e ->
     isinstance e cls_USBError = true ->
     _claim env s =
     usb_claim_at env b
       (trace s ++ [ev_is_kernel_driver_active i (Returns true);
                    ev_detach_kernel_driver i (Raises e);
                    ev_print (log_detach_failed e)])) /\
  (env_is_kernel_driver_active env (trace s) i = Returns false ->
   _claim env s =
   usb_claim_at env b (trace s ++ [ev_is_kernel_driver_active i (Returns false)])) /\
  (env_is_kernel_driver_active env (trace s) i = Returns true ->
   env_detach_kernel_driver env
     (trace s ++ [ev_is_kernel_driver_active i (Returns true)]) i = Returns tt ->
   _claim env s =
   usb_claim_at env (set_orig_kernel_attached true b)
     (trace s ++ [ev_is_kernel_driver_active i (Returns true);
                  ev_detach_kernel_driver i (Returns tt);
                  ev_print (log_detached i)])) /\
  (forall b' t e,
     env_claim_interface env t (iface b') = Raises e ->
     usb_claim_at env b' t =
     (Raise e, mkState b' (t ++ [ev_claim_interface (iface b') (Raises e)]))) /\
  (forall fuel e s1 s2,
     _find_endpoints env s = (Ok tt, s1) ->
     in_ep (self s1) <> None \/ out_ep (self s1) <> None ->
     _claim env s1 = (Raise e, s2) ->
     start env fuel s = (Raise e, s2)) /\
  (forall e,
     env_is_kernel_driver_active env (trace s) i = Returns true ->
     env_detach_kernel_driver env
       (trace s ++ [ev_is_kernel_driver_active i (Returns true)]) i = Raises e ->
     isinstance e cls_USBError = false ->
     let t1 := trace s ++ [ev_is_kernel_driver_active i (Returns true);
                           ev_detach_kernel_driver i (Raises e)] in
     (isinstance e cls_NotImplementedError || isinstance e cls_AttributeError
        = true ->
      _claim env s = usb_claim_at env b t1) /\
     (isinstance e cls_NotImplementedError || isinstance e cls_AttributeError
        = false ->
      _claim env s = (Raise e, mkState b t1))) /\
  (forall e,
     env_is_kernel_driver_active env (trace s) i = Raises e ->
     isinstance e cls_NotImplementedError || isinstance e cls_AttributeError
       = false ->
     _claim env s =
     (Raise e, mkState b (trace s ++ [ev_is_kernel_driver_active i (Raises e)]))).
Proof.
  intros b i. subst b i.
  split; [ | split; [ | split; [ | split; [ | split; [ | split;
    [ | split ] ] ] ] ] ].
  - intros e Hq He.
    unfold _claim, usb_claim_at, try_except, bind, get_self, call, ret.
    simpl. rewrite Hq. simpl. rewrite He. simpl. reflexivity.
  - intros e Hq Hd He.
    unfold _claim, usb_claim_at, try_except, bind, get_self, call, print, emit,
      ret.
    simpl. rewrite Hq. simpl. rewrite Hd. simpl. rewrite He. simpl.
    rewrite <- !app_assoc. reflexivity.
  - intros Hq.
    unfold _claim, usb_claim_at, try_except, bind, get_self, call, ret.
    simpl. rewrite Hq. simpl. reflexivity.
  - intros Hq Hd.
    unfold _claim, usb_claim_at, try_except, bind, get_self, call, print, emit,
      modify_self, ret.
    simpl. rewrite Hq. simpl. rewrite Hd. simpl.
    rewrite <- !app_assoc. reflexivity.
  - intros b' t e Hc. unfold usb_claim_at, call. simpl. rewrite Hc. reflexivity.
  - intros fuel e s1 s2 Hf Hep Hc. unfold start.
    rewrite (bind_Ok _ _ _ _ _ Hf).
    erewrite bind_Ok by reflexivity.
    assert (Hchk : (match out_ep (self s1), in_ep (self s1) with
                    | None, None => raise NoEndpointsFound
                    | _, _ => ret tt
                    end) s1 = (Ok tt, s1)).
    { destruct (out_ep (self s1)), (in_ep (self s1)); try reflexivity.
      destruct Hep as [Hep | Hep]; congruence. }
    rewrite (bind_Ok _ _ _ _ _ Hchk).
    apply bind_Raise. exact Hc.
  - intros e Hq Hd Hu t1. subst t1. split; intros He.
    + unfold _claim, usb_claim_at, try_except, bind, get_self, call, raise,
        ret.
      simpl. rewrite Hq. simpl. rewrite Hd. simpl. rewrite Hu. simpl.
      rewrite He. simpl. rewrite <- !app_assoc. reflexivity.
    + unfold _claim, try_except, bind, get_self, call, raise, ret.
      simpl. rewrite Hq. simpl. rewrite Hd. simpl. rewrite Hu. simpl.
      rewrite He. simpl. rewrite <- !app_assoc. reflexivity.
  - intros e Hq He.
    unfold _claim, try_except, bind, get_self, call, raise, ret.
    simpl. rewrite Hq. simpl. rewrite He. reflexivity.
Qed.

Lemma claim_error_handling_witness :
  _claim env_unsupported_busy fresh_session =
    (Raise exc_busy,
     mkState __init__
       [ev_is_kernel_driver_active None (Raises exc_unsupported);
        ev_claim_interface None (Raises exc_busy)]) /\
  _claim env_detach_denied fresh_session =
    (Ok tt,
     mkState __init__
       [ev_is_kernel_driver_active None (Returns true);
        ev_detach_kernel_driver None (Raises exc_access);
        ev_print (log_detach_failed exc_access);
        ev_claim_interface None (Returns tt)]) /\
  fst (start env_unsupported_busy 1 fresh_session) = Raise exc_busy /\
  _claim env_detach_unsupported fresh_session =
    (Ok tt,
     mkState __init__
       [ev_is_kernel_driver_active None (Returns true);
        ev_detach_kernel_driver None (Raises exc_unsupported);
        ev_claim_interface None (Returns tt)]) /\
  _claim env_detach_breaks fresh_session =
    (Raise exc_value,
     mkState __init__
       [ev_is_kernel_driver_active None (Returns true);
        ev_detach_kernel_driver None (Raises exc_value)]).
Proof.
  destruct (claim_error_handling env_unsupported_busy fresh_session)
    as (Ha & _ & _ & _ & Hc & Hs & _).
  destruct (claim_error_handling env_detach_denied fresh_session)
    as (_ & Hb & _).
  destruct (claim_error_handling env_detach_unsupported fresh_session)
    as (_ & _ & _ & _ & _ & _ & Hu & _).
  destruct (claim_error_handling env_detach_breaks fresh_session)
    as (_ & _ & _ & _ & _ & _ & Hv & _).
  split; [ | split; [ | split; [ | split ] ] ].
  - rewrite (Ha exc_unsupported eq_refl eq_refl).
    rewrite (Hc _ _ exc_busy eq_refl). reflexivity.
  - rewrite (Hb exc_access eq_refl eq_refl eq_refl). reflexivity.
  - erewrite (Hs 1%nat exc_busy); [ reflexivity | reflexivity | | reflexivity ].
    left. discriminate.
  - rewrite (proj1 (Hu exc_unsupported eq_refl eq_refl eq_refl) eq_refl).
    reflexivity.
  - exact (proj2 (Hv exc_value eq_refl eq_refl eq_refl) eq_refl).
Defined.

(** C7, as stated, fails for a detach that does not fail with a
    [USBError].  When the backend has no detach ([NotImplementedError])
    the claim goes on but nothing is logged; when the detach raises
    something else (here a [ValueError]) the claim fails, and the
    USB-level claim is never attempted. *)
Lemma detach_failure_counterexample :
  env_detach_kernel_driver env_detach_unsupported
    [ev_is_kernel_driver_active None (Returns true)] None =
    Raises exc_unsupported /\
  _claim env_detach_unsupported fresh_session =
    (Ok tt,
     mkState __init__
       [ev_is_kernel_driver_active None (Returns true);
        ev_detach_kernel_driver None (Raises exc_unsupported);
        ev_claim_interface None (Returns tt)]) /\
  filter is_print (trace (snd (_claim env_detach_unsupported fresh_session))) =
    [] /\
  env_detach_kernel_driver env_detach_breaks
    [ev_is_kernel_driver_active None (Returns true)] None =
    Raises exc_value /\
  _claim env_detach_breaks fresh_session =
    (Raise exc_value,
     mkState __init__
       [ev_is_kernel_driver_active None (Returns true);
        ev_detach_kernel_driver None (Raises exc_value)]) /\
  filter is_claim (trace (snd (_claim env_detach_breaks fresh_session))) = [].
Proof. vm_compute. repeat split. Qed.

(** ** The forwarding loops *)

Lemma while_step fuel body s :
  _should_stop (self s) = false ->
  while_not_should_stop (S fuel) body s =
  bind body
       (fun c =>
          match c with
          | ctl_break => ret tt
          | ctl_continue | ctl_end => while_not_should_stop fuel body
          end) s.
Proof. intros H. simpl. rewrite H. reflexivity. Qed.

Lemma while_break fuel body s s' :
  _should_stop (self s) = false ->
  body s = (Ok ctl_break, s') ->
  while_not_should_stop (S fuel) body s = (Ok tt, s').
Proof.
  intros H Hb. rewrite while_step by exact H.
  rewrite (bind_Ok _ _ _ _ _ Hb). reflexivity.
Qed.

Lemma while_next fuel body s c s' :
  _should_stop (self s) = false ->
  body s = (Ok c, s') ->
  c <> ctl_break ->
  while_not_should_stop (S fuel) body s = while_not_should_stop fuel body s'.
Proof.
  intros H Hb Hc. rewrite while_step by exact H.
  rewrite (bind_Ok _ _ _ _ _ Hb). destruct c; congruence.
Qed.

Lemma _pty_writer_loop_unfold env fuel s :
  _pty_writer_loop env fuel s =
  while_not_should_stop fuel (pty_writer_body env (_master_fd (self s))) s.
Proof. reflexivity. Qed.

Lemma at_most_length {A} (n : Z) (r : Outcome (list A)) (l : list A) :
  at_most n r = Returns l -> (List.length l <= Z.to_nat n)%nat.
Proof.
  unfold at_most. destruct r as [l0 | e]; [ | discriminate ].
  intros H. injection H as <-. apply firstn_le_length.
Qed.

Lemma is_empty_nil {A} (l : list A) : is_empty l = true <-> l = [].
Proof. destruct l; simpl; split; congruence. Qed.

Section WriterBody.

Variables (env : Env) (master : option Z) (s : State).

Let t0 := trace s.
Let t1 := t0 ++ [ev_select master SELECT_TIMEOUT (Returns true)].

Hypothesis Hready : env_select env t0 master SELECT_TIMEOUT = Returns true.

Variable data : bytes.
Let t2 := t1 ++ [ev_os_read master PTY_READ_SIZE (Returns data)].

Hypothesis Hread :
  at_most PTY_READ_SIZE (env_os_read env t1 master PTY_READ_SIZE) =
  Returns data.

Lemma pty_writer_body_eof :
  data = [] ->
  pty_writer_body env master s = (Ok ctl_break, mkState (self s) t2).
Proof.
  intros Hd.
  unfold pty_writer_body, os_read, bind, try_except, call, ret. simpl.
  fold t0. rewrite Hready. simpl. fold t1. rewrite Hread. simpl.
  subst t2. rewrite Hd. reflexivity.
Qed.

Lemma pty_writer_body_discard :
  data <> [] -> out_ep (self s) = None ->
  pty_writer_body env master s =
  (Ok ctl_continue,
   mkState (self s)
           (t2 ++ [ev_print (log_no_out_endpoint (List.length data))])).
Proof.
  intros Hd Ho.
  assert (Hne : is_empty data = false)
    by (destruct data; [ congruence | reflexivity ]).
  unfold pty_writer_body, os_read, bind, try_except, call, ret, get_self, print,
    emit.
  simpl. fold t0. rewrite Hready. simpl. fold t1. rewrite Hread. simpl.
  rewrite Hne. simpl. rewrite Ho. reflexivity.
Qed.

Variable ep : Endpoint.
Hypothesis Hout : out_ep (self s) = Some ep.

Let w := env_usb_write env t2 (bEndpointAddress ep) data USB_WRITE_TIMEOUT.
Let t3 := t2 ++ [ev_usb_write (bEndpointAddress ep) data USB_WRITE_TIMEOUT w].

Lemma pty_writer_body_write_ok n :
  data <> [] -> w = Returns n ->
  pty_writer_body env master s =
  (Ok ctl_end,
   mkState (self s)
           (t3 ++ [ev_print (log_pty_to_usb (List.length data));
                   ev_sleep LOOP_SLEEP])).
Proof.
  intros Hd Hw.
  assert (Hne : is_empty data = false)
    by (destruct data; [ congruence | reflexivity ]).
  unfold pty_writer_body, os_read, bind, try_except, call, ret, get_self, print,
    sleep, emit.
  simpl. fold t0. rewrite Hready. simpl. fold t1. rewrite Hread. simpl.
  rewrite Hne. simpl. rewrite Hout. simpl. fold t2. fold w. subst t3. rewrite Hw. simpl.
  rewrite <- !app_assoc. reflexivity.
Qed.

Lemma pty_writer_body_write_error e :
  data <> [] -> w = Raises e -> isinstance e cls_USBError = true ->
  pty_writer_body env master s =
  (Ok ctl_end,
   mkState (self s)
           (t3 ++ [ev_print (log_usb_write_error e); ev_sleep LOOP_SLEEP])).
Proof.
  intros Hd Hw He.
  assert (Hne : is_empty data = false)
    by (destruct data; [ congruence | reflexivity ]).
  unfold pty_writer_body, os_read, bind, try_except, call, ret, get_self, print,
    sleep, emit.
  simpl. fold t0. rewrite Hready. simpl. fold t1. rewrite Hread. simpl.
  rewrite Hne. simpl. rewrite Hout. simpl. fold t2. fold w. subst t3. rewrite Hw. simpl. rewrite He. simpl.
  rewrite <- !app_assoc. reflexivity.
Qed.

End WriterBody.

Lemma pty_writer_body_starts_with_select env master s :
  exists t,
    trace (snd (pty_writer_body env master s)) =
    trace s ++
    ev_select master SELECT_TIMEOUT
              (env_select env (trace s) master SELECT_TIMEOUT) :: t.
Proof.
  unfold pty_writer_body.
  match goal with
  | |- context [bind ?m ?k s] =>
      assert (G : forall a s1, exists t, trace (snd (k a s1)) = trace s1 ++ t)
  end.
  { intros a s1.
    unfold os_read, bind, try_except, call, ret, raise, get_self, print, sleep,
      emit.
    repeat (simpl; case_step); simpl; rewrite <- ?app_assoc; eauto. }
  unfold bind at 1. unfold call at 1.
  destruct (env_select env (trace s) master SELECT_TIMEOUT) as [a | e]; simpl.
  - match goal with
    | |- context [snd (?k0 ?s1)] => destruct (G a s1) as [t Ht]
    end.
    exists t. rewrite Ht. simpl. rewrite <- app_assoc. reflexivity.
  - exists []. reflexivity.
Qed.

(** C8: the terminal-to-USB loop.  Every iteration first waits on the
    master descriptor with a timeout of 0.2 s.  When the descriptor is
    ready it reads with a limit of 4096 bytes and gets no more than that.
    A read of zero bytes ends the loop normally.  Otherwise, with an OUT
    endpoint, exactly the bytes read are written to it with a timeout of
    5000 ms; when that write raises a [USBError] the error is logged, the
    iteration ends normally and the loop goes on to its next iteration. *)
Theorem pty_writer_iteration env s :
  let master := _master_fd (self s) in
  let body := pty_writer_body env master in
  let t1 := trace s ++ [ev_select master SELECT_TIMEOUT (Returns true)] in
  ((SELECT_TIMEOUT * 1000 == 200)%Q /\ PTY_READ_SIZE = 4096 /\
   USB_WRITE_TIMEOUT = 5000) /\
  (forall fuel,
     _pty_writer_loop env fuel s = while_not_should_stop fuel body s) /\
  (exists t,
     trace (snd (body s)) =
     trace s ++
     ev_select master SELECT_TIMEOUT
               (env_select env (trace s) master SELECT_TIMEOUT) :: t) /\
  (forall data,
     env_select env (trace s) master SELECT_TIMEOUT = Returns true ->
     at_most PTY_READ_SIZE (env_os_read env t1 master PTY_READ_SIZE) =
       Returns data ->
     let t2 := t1 ++ [ev_os_read master PTY_READ_SIZE (Returns data)] in
     (List.length data <= 4096)%nat /\
     (data = [] ->
      body s = (Ok ctl_break, mkState (self s) t2) /\
      forall fuel,
        _should_stop (self s) = false ->
        _pty_writer_loop env (S fuel) s = (Ok tt, mkState (self s) t2)) /\
     (forall ep,
        data <> [] ->
        out_ep (self s) = Some ep ->
        let w := env_usb_write env t2 (bEndpointAddress ep) data
                               USB_WRITE_TIMEOUT in
        let t3 := t2 ++ [ev_usb_write (bEndpointAddress ep) data
                                      USB_WRITE_TIMEOUT w] in
        (forall n,
           w = Returns n ->
           body s =
           (Ok ctl_end,
            mkState (self s)
                    (t3 ++ [ev_print (log_pty_to_usb (List.length data));
                            ev_sleep LOOP_SLEEP]))) /\
        (forall e,
           w = Raises e ->
           isinstance e cls_USBError = true ->
           let s' := mkState (self s)
                             (t3 ++ [ev_print (log_usb_write_error e);
                                     ev_sleep LOOP_SLEEP]) in
           body s = (Ok ctl_end, s') /\
           forall fuel,
             _should_stop (self s) = false ->
             _pty_writer_loop env (S fuel) s =
             while_not_should_stop fuel body s'))).
Proof.
  intros master body t1.
  split; [ repeat split | ].
  split; [ intros fuel; apply _pty_writer_loop_unfold | ].
  split; [ apply pty_writer_body_starts_with_select | ].
  intros data Hready Hread t2.
  split; [ | split ].
  - apply at_most_length in Hread. exact Hread.
  - intros Hd.
    pose proof (pty_writer_body_eof env master s Hready data Hread Hd) as Hb.
    split; [ exact Hb | ].
    intros fuel Hs. rewrite _pty_writer_loop_unfold.
    apply while_break; assumption.
  - intros ep Hd Hout w t3. split.
    + intros n Hw.
      apply (pty_writer_body_write_ok env master s Hready data Hread ep Hout n
               Hd Hw).
    + intros e Hw He s'.
      pose proof (pty_writer_body_write_error env master s Hready data Hread
                    ep Hout e Hd Hw He) as Hb.
      split; [ exact Hb | ].
      intros fuel Hs. rewrite _pty_writer_loop_unfold.
      eapply while_next; [ exact Hs | exact Hb | discriminate ].
Qed.

Lemma pty_writer_iteration_witness :
  let body := pty_writer_body env_write_fails (Some 3) in
  env_select env_write_fails [] (Some 3) SELECT_TIMEOUT = Returns true /\
  isinstance exc_io cls_USBError = true /\
  body running_session =
    (Ok ctl_end,
     mkState running_bridge
       [ev_select (Some 3) SELECT_TIMEOUT (Returns true);
        ev_os_read (Some 3) 4096 (Returns two_bytes);
        ev_usb_write 1 two_bytes 5000 (Raises exc_io);
        ev_print (log_usb_write_error exc_io);
        ev_sleep LOOP_SLEEP]) /\
  _pty_writer_loop env_write_fails 1 running_session =
    while_not_should_stop 0 body (snd (body running_session)).
Proof.
  intros body.
  destruct (pty_writer_iteration env_write_fails running_session)
    as (_ & _ & _ & H).
  destruct (H two_bytes eq_refl eq_refl) as (_ & _ & Hw).
  assert (Hne : two_bytes <> []) by discriminate.
  destruct (Hw (mkEndpoint 1 (Some 64)) Hne eq_refl) as (_ & He).
  destruct (He exc_io eq_refl eq_refl) as (Hb & Hl).
  split; [ reflexivity | ]. split; [ reflexivity | ].
  split; [ exact Hb | ].
  rewrite (Hl 0%nat eq_refl). reflexivity.
Defined.

(** ** Start *)

Section ThreadFrame.

Variable env : Env.

Local Abbreviation R := (unchanged is_thread_start (fun _ => tt)).

Lemma _find_endpoints_thread : preserves R (_find_endpoints env).
Proof. unfold _find_endpoints. preserves_tac. Qed.

Lemma _claim_thread : preserves R (_claim env).
Proof. unfold _claim. preserves_tac. Qed.

Lemma _release_thread : preserves R (_release env).
Proof. unfold _release. preserves_tac. Qed.

Lemma _create_pty_thread : preserves R (_create_pty env).
Proof. unfold _create_pty. preserves_tac. Qed.

Lemma stop_thread : preserves R (stop env).
Proof. unfold stop. preserves_tac. apply _release_thread. Qed.

Lemma _pty_writer_loop_thread fuel : preserves R (_pty_writer_loop env fuel).
Proof. unfold _pty_writer_loop, pty_writer_body. preserves_tac. Qed.

Lemma run_thread fuel :
  preserves R (try_finally (_pty_writer_loop env fuel) (stop env)).
Proof.
  apply (@preserves_try_finally R _);
    [ apply _pty_writer_loop_thread | apply stop_thread ].
Qed.

Lemma _claim_attrs_in : preserves (unchanged is_thread_start in_ep) (_claim env).
Proof. unfold _claim. preserves_tac. Qed.

Lemma _claim_attrs_out : preserves (unchanged is_thread_start out_ep) (_claim env).
Proof. unfold _claim. preserves_tac. Qed.

Lemma _create_pty_attrs_in :
  preserves (unchanged is_thread_start in_ep) (_create_pty env).
Proof. unfold _create_pty. preserves_tac. Qed.

Lemma _create_pty_attrs_out :
  preserves (unchanged is_thread_start out_ep) (_create_pty env).
Proof. unfold _create_pty. preserves_tac. Qed.

End ThreadFrame.

(** The state after a computation whose result and state are known. *)
Lemma preserved_by {A} (R : State -> State -> Prop) (m : M A) s r s' :
  preserves R m -> m s = (r, s') -> R s s'.
Proof. intros Hm H. specialize (Hm s). rewrite H in Hm. exact Hm. Qed.

(** What [start] does once resolution, claim and provisioning have
    succeeded. *)
Lemma start_after_acquire env fuel s s1 s2 s3 :
  _find_endpoints env s = (Ok tt, s1) ->
  in_ep (self s1) <> None \/ out_ep (self s1) <> None ->
  _claim env s1 = (Ok tt, s2) ->
  _create_pty env s2 = (Ok tt, s3) ->
  start env fuel s =
  bind (match in_ep (self s3) with
        | Some _ =>
            call (fun t => env_thread_start env t target_usb_reader_loop)
                 (ev_thread_start target_usb_reader_loop)
        | None => ret tt
        end)
       (fun _ => try_finally (_pty_writer_loop env fuel) (stop env))
       (mkState (self s3)
                (trace s3 ++ [ev_print (log_pty_slave (_slave_name (self s3)))])).
Proof.
  intros Hf Hep Hc Hp. unfold start.
  rewrite (bind_Ok _ _ _ _ _ Hf).
  erewrite bind_Ok by reflexivity.
  assert (Hchk : (match out_ep (self s1), in_ep (self s1) with
                  | None, None => raise NoEndpointsFound
                  | _, _ => ret tt
                  end) s1 = (Ok tt, s1)).
  { destruct (out_ep (self s1)), (in_ep (self s1)); try reflexivity.
    destruct Hep as [Hep | Hep]; congruence. }
  rewrite (bind_Ok _ _ _ _ _ Hchk).
  rewrite (bind_Ok _ _ _ _ _ Hc).
  rewrite (bind_Ok _ _ _ _ _ Hp).
  erewrite bind_Ok by reflexivity.
  erewrite bind_Ok by reflexivity.
  reflexivity.
Qed.

(** C5: the forwarding paths after a successful start.  When resolution,
    claim and provisioning have succeeded, [start] spawns the USB reader
    thread exactly when an IN endpoint was found, and then (the spawn
    having returned) runs the terminal loop, with or without an OUT
    endpoint.  Without an OUT endpoint, an iteration that reads a
    non-empty chunk makes no USB write: it logs the warning, ends
    normally by [continue], and the loop goes on to its next iteration. *)
Theorem forwarding_paths_after_start env fuel s s1 s2 s3 :
  _find_endpoints env s = (Ok tt, s1) ->
  in_ep (self s1) <> None \/ out_ep (self s1) <> None ->
  _claim env s1 = (Ok tt, s2) ->
  _create_pty env s2 = (Ok tt, s3) ->
  let s4 := mkState (self s3)
              (trace s3 ++ [ev_print (log_pty_slave (_slave_name (self s3)))]) in
  let spawn := ev_thread_start target_usb_reader_loop
                 (env_thread_start env (trace s4) target_usb_reader_loop) in
  let run := try_finally (_pty_writer_loop env fuel) (stop env) in
  (in_ep (self s3) = in_ep (self s1) /\ out_ep (self s3) = out_ep (self s1)) /\
  filter is_thread_start (trace (snd (start env fuel s))) =
    filter is_thread_start (trace s) ++
    match in_ep (self s3) with
    | Some _ => [spawn]
    | None => []
    end /\
  (in_ep (self s3) = None -> start env fuel s = run s4) /\
  (in_ep (self s3) <> None ->
   env_thread_start env (trace s4) target_usb_reader_loop = Returns tt ->
   start env fuel s = run (mkState (self s3) (trace s4 ++ [spawn]))) /\
  (forall st data,
     let master := _master_fd (self st) in
     let t1 := trace st ++ [ev_select master SELECT_TIMEOUT (Returns true)] in
     out_ep (self st) = None ->
     env_select env (trace st) master SELECT_TIMEOUT = Returns true ->
     at_most PTY_READ_SIZE (env_os_read env t1 master PTY_READ_SIZE) =
       Returns data ->
     data <> [] ->
     let st' := mkState (self st)
                  (t1 ++ [ev_os_read master PTY_READ_SIZE (Returns data);
                          ev_print (log_no_out_endpoint (List.length data))]) in
     pty_writer_body env master st = (Ok ctl_continue, st') /\
     forall fuel',
       _should_stop (self st) = false ->
       _pty_writer_loop env (S fuel') st =
       while_not_should_stop fuel' (pty_writer_body env master) st').
Proof.
  intros Hf Hep Hc Hp s4 spawn run.
  pose proof (start_after_acquire env fuel s s1 s2 s3 Hf Hep Hc Hp) as Hst.
  fold s4 run in Hst.
  assert (Hattr : in_ep (self s3) = in_ep (self s1) /\
                  out_ep (self s3) = out_ep (self s1)).
  { destruct (preserved_by (unchanged is_thread_start in_ep) _ _ _ _
                (_claim_attrs_in env) Hc) as [_ Hi2].
    destruct (preserved_by (unchanged is_thread_start in_ep) _ _ _ _
                (_create_pty_attrs_in env) Hp) as [_ Hi3].
    destruct (preserved_by (unchanged is_thread_start out_ep) _ _ _ _
                (_claim_attrs_out env) Hc) as [_ Ho2].
    destruct (preserved_by (unchanged is_thread_start out_ep) _ _ _ _
                (_create_pty_attrs_out env) Hp) as [_ Ho3].
    split; congruence. }
  split; [ exact Hattr | ].
  assert (Hpre : filter is_thread_start (trace s4) =
                 filter is_thread_start (trace s)).
  { destruct (preserved_by _ _ _ _ _ (_find_endpoints_thread env) Hf) as [H1 _].
    destruct (preserved_by _ _ _ _ _ (_claim_thread env) Hc) as [H2 _].
    destruct (preserved_by _ _ _ _ _ (_create_pty_thread env) Hp) as [H3 _].
    subst s4. simpl. rewrite filter_app. simpl. rewrite app_nil_r. congruence. }
  split; [ | split; [ | split ] ].
  - rewrite Hst. unfold bind.
    destruct (in_ep (self s3)) as [ep | ].
    + unfold call. fold spawn.
      destruct (env_thread_start env (trace s4) target_usb_reader_loop)
        as [[] | e]; cbv beta iota.
      * destruct (run_thread env fuel
                    (mkState (self s4) (trace s4 ++ [spawn]))) as [Hr _].
        fold run in Hr. rewrite Hr. cbn [trace]. rewrite filter_app.
        rewrite Hpre. reflexivity.
      * cbn [snd trace]. rewrite filter_app. rewrite Hpre. reflexivity.
    + unfold ret. cbv beta iota.
      destruct (run_thread env fuel s4) as [Hr _].
      fold run in Hr. rewrite Hr, Hpre, app_nil_r. reflexivity.
  - intros Hin. rewrite Hst, Hin. reflexivity.
  - intros Hin Hsp. rewrite Hst.
    destruct (in_ep (self s3)) as [ep | ]; [ | congruence ].
    unfold bind, call. fold spawn. rewrite Hsp. reflexivity.
  - intros st data master t1 Ho Hready Hread Hd st'.
    pose proof (pty_writer_body_discard env master st Hready data Hread Hd Ho)
      as Hb.
    assert (E : st' = mkState (self st)
                  ((t1 ++ [ev_os_read master PTY_READ_SIZE (Returns data)]) ++
                   [ev_print (log_no_out_endpoint (List.length data))])).
    { subst st'. rewrite <- app_assoc. reflexivity. }
    rewrite E. split; [ exact Hb | ].
    intros fuel' Hs. rewrite _pty_writer_loop_unfold.
    eapply while_next; [ exact Hs | exact Hb | discriminate ].
Qed.

(** A printer with both endpoints gets its reader thread; a session
    without OUT endpoint drops what the terminal sends. *)
Lemma forwarding_paths_after_start_witness :
  filter is_thread_start (trace (snd (start env_plain 1 fresh_session))) =
    [ev_thread_start target_usb_reader_loop (Returns tt)] /\
  pty_writer_body env_write_fails (Some 3) input_only_session =
    (Ok ctl_continue,
     mkState (self input_only_session)
       [ev_select (Some 3) SELECT_TIMEOUT (Returns true);
        ev_os_read (Some 3) 4096 (Returns two_bytes);
        ev_print (log_no_out_endpoint 2)]).
Proof.
  set (s1 := snd (_find_endpoints env_plain fresh_session)).
  set (s2 := snd (_claim env_plain s1)).
  set (s3 := snd (_create_pty env_plain s2)).
  assert (A1 : _find_endpoints env_plain fresh_session = (Ok tt, s1))
    by (vm_compute; reflexivity).
  assert (A2 : in_ep (self s1) <> None \/ out_ep (self s1) <> None)
    by (vm_compute; left; discriminate).
  assert (A3 : _claim env_plain s1 = (Ok tt, s2)) by (vm_compute; reflexivity).
  assert (A4 : _create_pty env_plain s2 = (Ok tt, s3))
    by (vm_compute; reflexivity).
  pose proof (forwarding_paths_after_start env_plain 1 fresh_session s1 s2 s3
                A1 A2 A3 A4) as (_ & Hspawn & _ & _ & _).
  pose proof (forwarding_paths_after_start env_write_fails 1 fresh_session
                (snd (_find_endpoints env_write_fails fresh_session))
                (snd (_claim env_write_fails
                        (snd (_find_endpoints env_write_fails fresh_session))))
                (snd (_create_pty env_write_fails
                        (snd (_claim env_write_fails
                           (snd (_find_endpoints env_write_fails fresh_session))))))
                ltac:(vm_compute; reflexivity)
                ltac:(vm_compute; left; discriminate)
                ltac:(vm_compute; reflexivity)
                ltac:(vm_compute; reflexivity))
    as (_ & _ & _ & _ & Hdrop).
  split.
  - rewrite Hspawn. vm_compute. reflexivity.
  - assert (Hne : two_bytes <> []) by discriminate.
    exact (proj1 (Hdrop input_only_session two_bytes eq_refl eq_refl eq_refl
                    Hne)).
Defined.

(** Scenario of a device with an OUT endpoint only: [start] succeeds, the
    reader thread is never spawned, the terminal loop runs to the end of
    file and the session stops with the claim released. *)
Example out_only_device_run :
  let cfg := [[mkInterface 0 0 7 [mkEndpoint 1 (Some 64)]]] in
  let env := sample_env cfg (Returns false) (Returns tt) (Returns tt)
               (Returns (3, 4)) (Returns true) (Returns []) (Returns [])
               (Returns 0) in
  start env 1 fresh_session =
  (Ok tt,
   mkState
     (mkBridge (Some (mkEndpoint 1 (Some 64))) None (Some 0) true (Some 3)
               (Some "/dev/pts/3"%string) false)
     [ev_get_active_configuration (Returns cfg);
      ev_is_kernel_driver_active (Some 0) (Returns false);
      ev_claim_interface (Some 0) (Returns tt);
      ev_openpty (Returns (3, 4));
      ev_ttyname 4 (Returns "/dev/pts/3"%string);
      ev_close 4 (Returns tt);
      ev_print (log_pty_slave (Some "/dev/pts/3"%string));
      ev_select (Some 3) SELECT_TIMEOUT (Returns true);
      ev_os_read (Some 3) 4096 (Returns []);
      ev_print log_stopping;
      ev_close 3 (Returns tt);
      ev_release_interface (Some 0) (Returns tt);
      ev_print log_stopped]).
Proof. vm_compute. reflexivity. Qed.


(** ** The USB-to-terminal loop *)

Lemma is_usb_timeout_USBError (e : Exc) :
  is_usb_timeout e = true -> isinstance e cls_USBError = true.
Proof.
  unfold is_usb_timeout. destruct e as [c n m].
  destruct c; simpl; try reflexivity; discriminate.
Qed.

Lemma _usb_reader_loop_unfold env fuel s :
  _usb_reader_loop env fuel s =
  while_not_should_stop fuel
    (usb_reader_body env
       match in_ep (self s) with
       | Some ep => match wMaxPacketSize ep with
                    | Some n => n
                    | None => 512
                    end
       | None => 512
       end) s.
Proof. reflexivity. Qed.

Lemma usb_reader_body_extends env bufsize :
  preserves extends (usb_reader_body env bufsize).
Proof. unfold usb_reader_body. preserves_tac. Qed.

(** Past its first iteration a loop only adds to what that iteration did. *)
Lemma while_first_body fuel body s :
  preserves extends body ->
  _should_stop (self s) = false ->
  exists t,
    trace (snd (while_not_should_stop (S fuel) body s)) =
    trace (snd (body s)) ++ t.
Proof.
  intros Hb Hs. rewrite while_step by exact Hs. unfold bind.
  destruct (body s) as [[c | e |] s1]; simpl;
    try (exists []; rewrite app_nil_r; reflexivity).
  destruct c; try (exists []; rewrite app_nil_r; reflexivity);
    apply (@preserves_while extends _); exact Hb.
Qed.

Section ReaderBody.

Variables (env : Env) (bufsize : Z) (s : State) (ep : Endpoint).

Hypothesis Hin : in_ep (self s) = Some ep.

Let addr := bEndpointAddress ep.
Let r := env_usb_read env (trace s) addr bufsize USB_READ_TIMEOUT.
Let rd := ev_usb_read addr bufsize USB_READ_TIMEOUT r.

Lemma usb_reader_body_starts_with_read :
  exists t, trace (snd (usb_reader_body env bufsize s)) = trace s ++ rd :: t.
Proof.
  unfold usb_reader_body, bind, try_except, get_self, call, ret, raise, print,
    sleep, emit.
  simpl. rewrite Hin. simpl. fold addr. fold r. fold rd.
  repeat (simpl; case_step); simpl; rewrite <- ?app_assoc; simpl; eauto.
Qed.

Variable e : Exc.
Hypothesis Hr : r = Raises e.

Lemma usb_reader_body_usb_error :
  isinstance e cls_USBError = true ->
  usb_reader_body env bufsize s =
  (Ok ctl_end, mkState (self s) (trace s ++ [rd; ev_sleep LOOP_SLEEP])).
Proof.
  intros He.
  unfold usb_reader_body, bind, try_except, get_self, call, ret, sleep, emit.
  simpl. rewrite Hin. simpl. fold addr. fold r. subst rd. rewrite Hr. simpl.
  rewrite He. simpl. rewrite <- app_assoc. reflexivity.
Qed.

Lemma usb_reader_body_other_error :
  isinstance e cls_USBError = false ->
  usb_reader_body env bufsize s =
  (Ok ctl_break,
   mkState (self s) (trace s ++ [rd; ev_print (log_usb_reader_error e)])).
Proof.
  intros He.
  unfold usb_reader_body, bind, try_except, get_self, call, ret, print, emit.
  simpl. rewrite Hin. simpl. fold addr. fold r. subst rd. rewrite Hr. simpl.
  rewrite He, isinstance_Exception. simpl. rewrite <- app_assoc. reflexivity.
Qed.

End ReaderBody.

(** C2, as the code has it: in the USB-to-terminal loop a read that
    raises any [USBError], a timeout or not, is ignored without a log
    line; the iteration ends normally and the next iteration issues the
    same read again.  A read that raises anything else is logged and ends
    the loop normally. *)
Theorem usb_read_error_handling env s ep e :
  in_ep (self s) = Some ep ->
  _should_stop (self s) = false ->
  let addr := bEndpointAddress ep in
  let bufsize := match wMaxPacketSize ep with
                 | Some n => n
                 | None => 512
                 end in
  env_usb_read env (trace s) addr bufsize USB_READ_TIMEOUT = Raises e ->
  let rd := ev_usb_read addr bufsize USB_READ_TIMEOUT (Raises e) in
  USB_READ_TIMEOUT = 200 /\
  (is_usb_timeout e = true -> isinstance e cls_USBError = true) /\
  (isinstance e cls_USBError = true ->
   let s' := mkState (self s) (trace s ++ [rd; ev_sleep LOOP_SLEEP]) in
   forall fuel,
     _usb_reader_loop env (S fuel) s = _usb_reader_loop env fuel s' /\
     exists t,
       trace (snd (_usb_reader_loop env (S (S fuel)) s)) =
       trace s' ++
       ev_usb_read addr bufsize USB_READ_TIMEOUT
         (env_usb_read env (trace s') addr bufsize USB_READ_TIMEOUT) :: t) /\
  (isinstance e cls_USBError = false ->
   forall fuel,
     _usb_reader_loop env (S fuel) s =
     (Ok tt,
      mkState (self s) (trace s ++ [rd; ev_print (log_usb_reader_error e)]))).
Proof.
  intros Hin Hs addr bufsize Hr rd.
  split; [ reflexivity | ].
  split; [ apply is_usb_timeout_USBError | ].
  split.
  - intros He s'.
    pose proof (usb_reader_body_usb_error env bufsize s ep Hin e Hr He) as Hb.
    fold addr in Hb. rewrite Hr in Hb. fold rd s' in Hb.
    assert (Hstep : forall fuel,
              _usb_reader_loop env (S fuel) s = _usb_reader_loop env fuel s').
    { intros fuel. rewrite !_usb_reader_loop_unfold. simpl self.
      rewrite Hin. fold bufsize.
      eapply while_next; [ exact Hs | exact Hb | discriminate ]. }
    intros fuel. split; [ apply Hstep | ].
    rewrite Hstep, _usb_reader_loop_unfold. simpl self. rewrite Hin.
    fold bufsize.
    destruct (while_first_body fuel (usb_reader_body env bufsize) s'
                (usb_reader_body_extends env bufsize) Hs) as [t Ht].
    destruct (usb_reader_body_starts_with_read env bufsize s' ep Hin)
      as [t0 Ht0].
    exists (t0 ++ t). rewrite Ht, Ht0. fold addr.
    rewrite <- app_assoc. reflexivity.
  - intros He fuel.
    pose proof (usb_reader_body_other_error env bufsize s ep Hin e Hr He) as Hb.
    fold addr in Hb. rewrite Hr in Hb. fold rd in Hb.
    rewrite _usb_reader_loop_unfold. rewrite Hin. fold bufsize.
    apply while_break; assumption.
Qed.

Lemma usb_read_error_handling_witness :
  is_usb_timeout exc_io = false /\
  _usb_reader_loop env_read_fails 1 running_session =
    _usb_reader_loop env_read_fails 0
      (mkState running_bridge
         [ev_usb_read 129 64 200 (Raises exc_io); ev_sleep LOOP_SLEEP]) /\
  _usb_reader_loop env_read_breaks 1 running_session =
    (Ok tt,
     mkState running_bridge
       [ev_usb_read 129 64 200 (Raises exc_value);
        ev_print (log_usb_reader_error exc_value)]).
Proof.
  split; [ reflexivity | ].
  destruct (usb_read_error_handling env_read_fails running_session
              (mkEndpoint 129 (Some 64)) exc_io eq_refl eq_refl eq_refl)
    as (_ & _ & Husb & _).
  destruct (usb_read_error_handling env_read_breaks running_session
              (mkEndpoint 129 (Some 64)) exc_value eq_refl eq_refl eq_refl)
    as (_ & _ & _ & Hother).
  split.
  - exact (proj1 (Husb eq_refl 0%nat)).
  - exact (Hother eq_refl 0%nat).
Defined.

(** C2, as stated, fails: an I/O error of the USB read, which is a
    [USBError] and not a timeout, is neither logged nor the end of the
    path; the loop sleeps and reads again. *)
Lemma usb_error_ends_path_counterexample :
  isinstance exc_io cls_USBError = true /\
  is_usb_timeout exc_io = false /\
  env_usb_read env_read_fails [] 129 64 USB_READ_TIMEOUT = Raises exc_io /\
  usb_reader_body env_read_fails 64 running_session =
    (Ok ctl_end,
     mkState running_bridge
       [ev_usb_read 129 64 200 (Raises exc_io); ev_sleep LOOP_SLEEP]) /\
  _usb_reader_loop env_read_fails 2 running_session =
    (OutOfFuel,
     mkState running_bridge
       [ev_usb_read 129 64 200 (Raises exc_io); ev_sleep LOOP_SLEEP;
        ev_usb_read 129 64 200 (Raises exc_io); ev_sleep LOOP_SLEEP]).
Proof. repeat split. Qed.

(** ** A failed provisioning *)

Section ReleaseFrame.

Variable env : Env.

Local Abbreviation R := (unchanged is_release _should_stop).

Lemma _find_endpoints_release : preserves R (_find_endpoints env).
Proof. unfold _find_endpoints. preserves_tac. Qed.

Lemma _claim_release : preserves R (_claim env).
Proof. unfold _claim. preserves_tac. Qed.

Lemma _create_pty_release : preserves R (_create_pty env).
Proof. unfold _create_pty. preserves_tac. Qed.

Lemma _release_extends : preserves extends (_release env).
Proof. unfold _release. preserves_tac. Qed.

Lemma stop_extends : preserves extends (stop env).
Proof. unfold stop. preserves_tac. apply _release_extends. Qed.

End ReleaseFrame.

(** A claim that returns has just claimed the interface. *)
Lemma _claim_Ok_claimed env s s' :
  _claim env s = (Ok tt, s') ->
  exists t, trace s' = t ++ [ev_claim_interface (iface (self s)) (Returns tt)].
Proof.
  unfold _claim, try_except, bind, get_self, call, modify_self, print, emit,
    ret, raise.
  repeat (simpl; case_step); simpl; intros H; inversion H; subst; simpl;
    eauto.
Qed.

Lemma events_since_later s s' s'' l :
  trace s' = trace s ++ l ->
  extends s' s'' ->
  forall ev, In ev (events_since s' s'') -> In ev (events_since s s'').
Proof.
  intros Hl [t Ht] ev Hev.
  rewrite (events_since_app s' s'' t Ht) in Hev.
  rewrite (events_since_app s s'' (l ++ t)).
  - apply in_or_app. right. exact Hev.
  - rewrite Ht, Hl, app_assoc. reflexivity.
Qed.

(** What [main] does when [start] raises: it logs the error, calls
    [stop] and exits with status 3. *)
Lemma main_start_raises env vid pid fuel sm dev s0 e s3 :
  find_printer_device env vid pid sm = (Ok (Some dev), s0) ->
  start env fuel
    (mkState __init__
       (trace s0 ++
        [ev_set_configuration (env_set_configuration env (trace s0))])) =
    (Raise e, s3) ->
  main env vid pid fuel sm =
  (Ok 3, snd (stop env (mkState (self s3) (trace s3 ++ [ev_print (log_error e)])))).
Proof.
  intros Hfind Hstart. unfold main.
  assert (Hf : try_except
                 (dev <- find_printer_device env vid pid ;; ret (inr dev))
                 (fun e =>
                    if isinstance e cls_NoBackendError
                    then print log_no_backend ;; ret (inl 1)
                    else raise e) sm = (Ok (inr (Some dev)), s0)).
  { unfold try_except. rewrite (bind_Ok _ _ _ _ _ Hfind). reflexivity. }
  rewrite (bind_Ok _ _ _ _ _ Hf).
  assert (Hc : try_except
                 (call (env_set_configuration env) ev_set_configuration)
                 (fun e => if isinstance e cls_Exception then ret tt else raise e)
                 s0 =
               (Ok tt,
                mkState (self s0)
                  (trace s0 ++
                   [ev_set_configuration (env_set_configuration env (trace s0))]))).
  { unfold try_except, call.
    destruct (env_set_configuration env (trace s0)) as [[] | e0]; simpl;
      rewrite ?isinstance_Exception; reflexivity. }
  rewrite (bind_Ok _ _ _ _ _ Hc).
  erewrite bind_Ok by reflexivity.
  unfold try_except. simpl trace. simpl self.
  rewrite (bind_Raise _ _ _ _ _ Hstart).
  rewrite isinstance_Exception.
  erewrite bind_Ok by reflexivity.
  pose proof (stop_Ok env
                (mkState (self s3) (trace s3 ++ [ev_print (log_error e)])))
    as Hok.
  unfold bind.
  destruct (stop env (mkState (self s3) (trace s3 ++ [ev_print (log_error e)])))
    as [[[] | e1 |] s5]; simpl in *; try discriminate.
  reflexivity.
Qed.

(** C1, as the code has it: when the claim has succeeded and the
    provisioning of the pseudo-terminal raises, [start] raises the same
    exception at once, with the interface still claimed: it makes no call
    of the release path and leaves the stop flag as it was.  The claim is
    released afterwards, by the [stop] of the caller: on a session not yet
    stopped [stop] returns and calls the USB release, and that is what
    [main] does in its handler before it exits with status 3. *)
Theorem provisioning_failure env fuel s s1 s2 s3 e :
  _find_endpoints env s = (Ok tt, s1) ->
  in_ep (self s1) <> None \/ out_ep (self s1) <> None ->
  _claim env s1 = (Ok tt, s2) ->
  _create_pty env s2 = (Raise e, s3) ->
  start env fuel s = (Raise e, s3) /\
  (exists t, trace s2 = t ++ [ev_claim_interface (iface (self s1)) (Returns tt)]) /\
  filter is_release (trace s3) = filter is_release (trace s) /\
  _should_stop (self s3) = _should_stop (self s) /\
  (_should_stop (self s) = false ->
   fst (stop env s3) = Ok tt /\
   exists r,
     In (ev_release_interface (iface (self s3)) r)
        (events_since s3 (snd (stop env s3)))) /\
  (forall vid pid sm dev s0,
     find_printer_device env vid pid sm = (Ok (Some dev), s0) ->
     s = mkState __init__
           (trace s0 ++
            [ev_set_configuration (env_set_configuration env (trace s0))]) ->
     fst (main env vid pid fuel sm) = Ok 3 /\
     exists r,
       In (ev_release_interface (iface (self s3)) r)
          (events_since s3 (snd (main env vid pid fuel sm)))).
Proof.
  intros Hf Hep Hc Hp.
  assert (Hstart : start env fuel s = (Raise e, s3)).
  { unfold start.
    rewrite (bind_Ok _ _ _ _ _ Hf).
    erewrite bind_Ok by reflexivity.
    assert (Hchk : (match out_ep (self s1), in_ep (self s1) with
                    | None, None => raise NoEndpointsFound
                    | _, _ => ret tt
                    end) s1 = (Ok tt, s1)).
    { destruct (out_ep (self s1)), (in_ep (self s1)); try reflexivity.
      destruct Hep as [Hep | Hep]; congruence. }
    rewrite (bind_Ok _ _ _ _ _ Hchk).
    rewrite (bind_Ok _ _ _ _ _ Hc).
    apply bind_Raise. exact Hp. }
  destruct (preserved_by _ _ _ _ _ (_find_endpoints_release env) Hf) as [Ht1 Hg1].
  destruct (preserved_by _ _ _ _ _ (_claim_release env) Hc) as [Ht2 Hg2].
  destruct (preserved_by _ _ _ _ _ (_create_pty_release env) Hp) as [Ht3 Hg3].
  assert (Hflag : _should_stop (self s3) = _should_stop (self s)) by congruence.
  split; [ exact Hstart | ].
  split; [ eapply _claim_Ok_claimed; exact Hc | ].
  split; [ congruence | ].
  split; [ exact Hflag | ].
  split.
  - intros Hs.
    split; [ apply stop_Ok | ]. apply stop_releases. congruence.
  - intros vid pid sm dev s0 Hfind Hs. subst s.
    rewrite (main_start_raises env vid pid fuel sm dev s0 e s3 Hfind Hstart).
    split; [ reflexivity | ].
    set (s4 := mkState (self s3) (trace s3 ++ [ev_print (log_error e)])).
    destruct (stop_releases env s4) as [r Hr];
      [ subst s4; simpl; rewrite Hflag; reflexivity | ].
    exists r. simpl snd.
    eapply (events_since_later s3 s4); [ reflexivity | apply stop_extends | ].
    exact Hr.
Qed.

(** The device is found and claimed, and no pseudo-terminal is left. *)
Lemma provisioning_failure_witness :
  start env_no_pty 1 fresh_session =
    (Raise exc_pty,
     mkState
       (set_in_ep (Some (mkEndpoint 129 (Some 64)))
          (set_out_ep (Some (mkEndpoint 1 (Some 64)))
             (set_iface (Some 0) __init__)))
       [ev_get_active_configuration (Returns sample_cfg);
        ev_is_kernel_driver_active (Some 0) (Returns false);
        ev_claim_interface (Some 0) (Returns tt);
        ev_openpty (Raises exc_pty)]) /\
  fst (main env_no_pty (Some 1208) (Some 514) 1 fresh_session) = Ok 3.
Proof.
  set (sm := mkState __init__
               [ev_find 1208 514 (Returns (Some (mkDevice [sample_cfg] None)));
                ev_set_configuration (Returns tt)]).
  assert (Hm : forall s,
            let s1 := snd (_find_endpoints env_no_pty s) in
            let s2 := snd (_claim env_no_pty s1) in
            let s3 := snd (_create_pty env_no_pty s2) in
            (s = sm \/ s = fresh_session) ->
            _find_endpoints env_no_pty s = (Ok tt, s1) /\
            (in_ep (self s1) <> None \/ out_ep (self s1) <> None) /\
            _claim env_no_pty s1 = (Ok tt, s2) /\
            _create_pty env_no_pty s2 = (Raise exc_pty, s3)).
  { intros s s1 s2 s3 [-> | ->]; subst s1 s2 s3; vm_compute;
      (split; [ reflexivity | ]); (split; [ left; discriminate | ]);
      split; reflexivity. }
  destruct (Hm sm (or_introl eq_refl)) as (A1 & A2 & A3 & A4).
  destruct (Hm fresh_session (or_intror eq_refl)) as (B1 & B2 & B3 & B4).
  pose proof (provisioning_failure env_no_pty 1 sm _ _ _ exc_pty A1 A2 A3 A4)
    as (_ & _ & _ & _ & _ & Hmain).
  pose proof (provisioning_failure env_no_pty 1 fresh_session _ _ _ exc_pty
                B1 B2 B3 B4) as (Hstart & _).
  split; [ exact Hstart | ].
  refine (proj1 (Hmain (Some 1208) (Some 514) fresh_session
                   (mkDevice [sample_cfg] None)
                   (mkState __init__
                      [ev_find 1208 514
                         (Returns (Some (mkDevice [sample_cfg] None)))]) _ _));
    vm_compute; reflexivity.
Defined.

(** C1, as stated, fails: with the interface claimed and no
    pseudo-terminal to be had, [start] raises with the claim still held;
    no release call was made and the stop flag is clear. *)
Lemma release_before_error_counterexample :
  let r := start env_no_pty 1 fresh_session in
  fst r = Raise exc_pty /\
  In (ev_claim_interface (Some 0) (Returns tt)) (trace (snd r)) /\
  filter is_release (trace (snd r)) = [] /\
  _should_stop (self (snd r)) = false.
Proof.
  vm_compute. split; [ reflexivity | ].
  split; [ auto | ].
  split; reflexivity.
Qed.

(** ** Byte-faithful forwarding *)

Lemma usb_writes_app t t' : usb_writes (t ++ t') = usb_writes t ++ usb_writes t'.
Proof. apply flat_map_app. Qed.

Lemma pty_reads_app t t' : pty_reads (t ++ t') = pty_reads t ++ pty_reads t'.
Proof. apply flat_map_app. Qed.

Lemma pty_writes_app t t' : pty_writes (t ++ t') = pty_writes t ++ pty_writes t'.
Proof. apply flat_map_app. Qed.

Lemma usb_reads_app t t' : usb_reads (t ++ t') = usb_reads t ++ usb_reads t'.
Proof. apply flat_map_app. Qed.

Lemma usb_read_calls_app t t' :
  usb_read_calls (t ++ t') = usb_read_calls t ++ usb_read_calls t'.
Proof. apply flat_map_app. Qed.

Lemma expected_usb_writes_app b l l' :
  expected_usb_writes b (l ++ l') =
  expected_usb_writes b l ++ expected_usb_writes b l'.
Proof.
  unfold expected_usb_writes. destruct (out_ep b); [ apply map_app | reflexivity ].
Qed.

#[export] Instance writer_forwarded_Frame : Frame writer_forwarded.
Proof.
  split.
  - intros s. split; [ reflexivity | ]. exists []. rewrite app_nil_r.
    split; [ reflexivity | ]. unfold expected_usb_writes.
    destruct (out_ep (self s)); reflexivity.
  - intros s1 s2 s3 [Hs [t [Ht Hw]]] [Hs' [t' [Ht' Hw']]].
    split; [ congruence | ]. exists (t ++ t'). split.
    + rewrite Ht', Ht, app_assoc. reflexivity.
    + rewrite usb_writes_app, pty_reads_app, expected_usb_writes_app.
      rewrite Hw, Hw', Hs. reflexivity.
Qed.

#[export] Instance reader_forwarded_Frame : Frame reader_forwarded.
Proof.
  split.
  - intros s. split; [ reflexivity | ]. exists []. rewrite app_nil_r.
    repeat split. constructor.
  - intros s1 s2 s3 [Hs [t [Ht [Hw Hr]]]] [Hs' [t' [Ht' [Hw' Hr']]]].
    split; [ congruence | ]. exists (t ++ t'). split; [ | split ].
    + rewrite Ht', Ht, app_assoc. reflexivity.
    + rewrite pty_writes_app, usb_reads_app, map_app.
      rewrite Hw, Hw', Hs. reflexivity.
    + rewrite usb_read_calls_app. apply Forall_app. split; [ assumption | ].
      rewrite <- Hs. assumption.
Qed.

#[export] Instance reader_forwarded_from_Frame b :
  Frame (reader_forwarded_from b).
Proof.
  split.
  - intros s _. apply frame_refl.
  - intros s1 s2 s3 H12 H23 H1.
    pose proof (H12 H1) as F12.
    eapply frame_trans; [ exact F12 | apply H23 ].
    destruct F12 as [Hs _]. congruence.
Qed.

(** Case analysis for a loop body: a payload is split into empty and
    non-empty before anything else. *)
Ltac body_case :=
  match goal with
  | |- context [is_empty ?d] => is_var d; destruct d
  | _ => case_step
  end.

Lemma pty_writer_body_forwarded env master :
  preserves writer_forwarded (pty_writer_body env master).
Proof.
  intros s. unfold writer_forwarded, expected_usb_writes.
  unfold pty_writer_body, os_read, bind, try_except, call, ret, raise,
    get_self, print, sleep, emit.
  repeat (simpl; body_case); simpl;
    (split; [ reflexivity | ]);
    eexists; (split; [ rewrite <- ?app_assoc; simpl; reflexivity | ]);
    simpl; rewrite ?Heqo; reflexivity.
Qed.

(** One iteration of the reader, with the read size of the session
    object it runs on. *)
Lemma usb_reader_body_forwarded env b :
  preserves (reader_forwarded_from b) (usb_reader_body env (reader_bufsize b)).
Proof.
  intros s Hb. subst b.
  unfold reader_forwarded, reader_call.
  unfold usb_reader_body, bind, try_except, call, ret, raise,
    get_self, print, sleep, emit.
  generalize (reader_bufsize (self s)). intros n.
  repeat (simpl; body_case); simpl;
    (split; [ reflexivity | ]);
    eexists; (split; [ rewrite <- ?app_assoc; simpl; reflexivity | ]);
    simpl; repeat constructor.
Qed.

(** X1: Terminal to USB: whatever the environment does and however many
    iterations run, the loop leaves the session object as it is, and the
    payloads of its USB writes are exactly the non-empty chunks it read
    from the terminal, in the same order, each sent whole to the OUT
    endpoint with the write timeout; without an OUT endpoint it writes
    nothing. *)
Theorem terminal_bytes_reach_usb env fuel s :
  let s' := snd (_pty_writer_loop env fuel s) in
  let t := events_since s s' in
  self s' = self s /\
  trace s' = trace s ++ t /\
  usb_writes t = expected_usb_writes (self s) (pty_reads t).
Proof.
  intros s' t.
  assert (H : writer_forwarded s s').
  { subst s'. rewrite _pty_writer_loop_unfold.
    apply (@preserves_while writer_forwarded _).
    apply pty_writer_body_forwarded. }
  destruct H as [Hs [t0 [Ht Hw]]].
  subst t. rewrite (events_since_app s s' t0 Ht). auto.
Qed.

(** X2: USB to terminal: whatever the environment does and however many
    iterations run, the loop leaves the session object as it is; every
    read it issues is on the IN endpoint with its packet size (512 when
    unknown) and the read timeout, and there is none without an IN
    endpoint; the payloads of its terminal writes are exactly the
    non-empty packets it read, in the same order, each written whole to
    the master descriptor. *)
Theorem usb_packets_reach_terminal env fuel s :
  let s' := snd (_usb_reader_loop env fuel s) in
  let t := events_since s s' in
  self s' = self s /\
  trace s' = trace s ++ t /\
  pty_writes t = map (fun d => (_master_fd (self s), d)) (usb_reads t) /\
  Forall (fun c => reader_call (self s) = Some c) (usb_read_calls t).
Proof.
  intros s' t.
  assert (H : reader_forwarded s s').
  { subst s'. rewrite _usb_reader_loop_unfold.
    apply (@preserves_while (reader_forwarded_from (self s)) _);
      [ apply usb_reader_body_forwarded | reflexivity ]. }
  destruct H as [Hs [t0 [Ht [Hw Hr]]]].
  subst t. rewrite (events_since_app s s' t0 Ht). auto.
Qed.

(** Two chunks and the end of file: both chunks go to endpoint 0x01 in
    order, the failed first write included, and the loop returns. *)
Example two_chunks_run :
  let r := _pty_writer_loop env_two_chunks 5 running_session in
  fst r = Ok tt /\
  pty_reads (trace (snd r)) = [two_bytes; three_bytes] /\
  usb_writes (trace (snd r)) = [(1, two_bytes, 5000); (1, three_bytes, 5000)].
Proof. vm_compute. repeat split. Qed.

(** ** What the loops never do *)

Lemma since_unchanged {A} (p : Event -> bool) (g : USBPrinterBridge -> A) s s' :
  unchanged p g s s' -> extends s s' -> filter p (events_since s s') = [].
Proof.
  intros [Hf _] [t Ht]. rewrite (events_since_app s s' t Ht).
  rewrite Ht, filter_app in Hf.
  apply (app_inv_head (filter p (trace s))). rewrite app_nil_r. exact Hf.
Qed.

Lemma filter_negb_nil {A} (p : A -> bool) (l : list A) :
  filter (fun x => negb (p x)) l = [] -> forallb p l = true.
Proof.
  induction l as [|x l IH]; simpl; [ reflexivity | ].
  destruct (p x); simpl; [ exact IH | discriminate ].
Qed.

Section LoopFrame.

Variable env : Env.

Lemma _pty_writer_loop_extends fuel : preserves extends (_pty_writer_loop env fuel).
Proof. unfold _pty_writer_loop, pty_writer_body. preserves_tac. Qed.

Lemma _usb_reader_loop_extends fuel : preserves extends (_usb_reader_loop env fuel).
Proof. unfold _usb_reader_loop, usb_reader_body. preserves_tac. Qed.

Lemma _pty_writer_loop_calls fuel :
  preserves (unchanged not_loop_call (fun b => b)) (_pty_writer_loop env fuel).
Proof. unfold _pty_writer_loop, pty_writer_body. preserves_tac. Qed.

Lemma _usb_reader_loop_calls fuel :
  preserves (unchanged not_loop_call (fun b => b)) (_usb_reader_loop env fuel).
Proof. unfold _usb_reader_loop, usb_reader_body. preserves_tac. Qed.

End LoopFrame.

(** X3: Neither forwarding loop tears anything down.  However it ends (by
    the stop flag, a [break], an exception or the iteration bound), the
    only calls it has made are transfers, readiness waits, pauses and log
    lines: it never closes a descriptor, never releases or claims the
    interface, never touches the kernel driver, and it leaves the stop
    flag as it found it. *)
Theorem loops_never_tear_down env fuel s :
  let w := snd (_pty_writer_loop env fuel s) in
  let r := snd (_usb_reader_loop env fuel s) in
  (forallb is_loop_call (events_since s w) = true /\
   _should_stop (self w) = _should_stop (self s)) /\
  (forallb is_loop_call (events_since s r) = true /\
   _should_stop (self r) = _should_stop (self s)).
Proof.
  intros w r. split; split.
  - apply filter_negb_nil.
    apply (since_unchanged not_loop_call (fun b => b));
      [ apply _pty_writer_loop_calls | apply _pty_writer_loop_extends ].
  - destruct (_pty_writer_loop_calls env fuel s) as [_ Hs].
    subst w. simpl in Hs. rewrite Hs. reflexivity.
  - apply filter_negb_nil.
    apply (since_unchanged not_loop_call (fun b => b));
      [ apply _usb_reader_loop_calls | apply _usb_reader_loop_extends ].
  - destruct (_usb_reader_loop_calls env fuel s) as [_ Hs].
    subst r. simpl in Hs. rewrite Hs. reflexivity.
Qed.

(** ** One iteration of the reader, case by case *)

Section ReaderData.

Variables (env : Env) (bufsize : Z) (s : State) (ep : Endpoint).

Hypothesis Hin : in_ep (self s) = Some ep.

Let addr := bEndpointAddress ep.

Variable data : bytes.

Hypothesis Hread :
  env_usb_read env (trace s) addr bufsize USB_READ_TIMEOUT = Returns data.

Let t1 := trace s ++ [ev_usb_read addr bufsize USB_READ_TIMEOUT (Returns data)].
Let fd := _master_fd (self s).
Let w := env_os_write env t1 fd data.
Let t2 := t1 ++ [ev_os_write fd data w].

Lemma usb_reader_body_no_data :
  data = [] ->
  usb_reader_body env bufsize s =
  (Ok ctl_end, mkState (self s) (t1 ++ [ev_sleep LOOP_SLEEP])).
Proof.
  intros Hd.
  unfold usb_reader_body, bind, try_except, get_self, call, ret, sleep, emit.
  simpl. rewrite Hin. simpl. fold addr. rewrite Hread. simpl.
  subst t1. rewrite Hd. reflexivity.
Qed.

Hypothesis Hdata : is_empty data = false.

Lemma usb_reader_body_written n :
  w = Returns n ->
  usb_reader_body env bufsize s =
  (Ok ctl_end,
   mkState (self s)
     (t2 ++ [ev_print (log_usb_to_pty (List.length data)); ev_sleep LOOP_SLEEP])).
Proof.
  intros Hw.
  unfold usb_reader_body, bind, try_except, get_self, call, ret, print, sleep,
    emit.
  simpl. rewrite Hin. simpl. fold addr. rewrite Hread. simpl.
  rewrite Hdata. simpl. fold t1. fold fd. fold w. subst t2. rewrite Hw. simpl.
  rewrite <- !app_assoc. reflexivity.
Qed.

Variable e : Exc.
Hypothesis Hw : w = Raises e.

Lemma usb_reader_body_closed :
  isinstance e cls_OSError = true -> errno_is e EBADF = true ->
  usb_reader_body env bufsize s = (Ok ctl_break, mkState (self s) t2).
Proof.
  intros He Hno.
  unfold usb_reader_body, bind, try_except, get_self, call, ret, print, sleep,
    emit.
  simpl. rewrite Hin. simpl. fold addr. rewrite Hread. simpl.
  rewrite Hdata. simpl. fold t1. fold fd. fold w. subst t2. rewrite Hw. simpl.
  rewrite He, Hno. reflexivity.
Qed.

Lemma usb_reader_body_dropped :
  isinstance e cls_OSError = true -> errno_is e EBADF = false ->
  usb_reader_body env bufsize s =
  (Ok ctl_end, mkState (self s) (t2 ++ [ev_sleep LOOP_SLEEP])).
Proof.
  intros He Hno.
  unfold usb_reader_body, bind, try_except, get_self, call, ret, print, sleep,
    emit.
  simpl. rewrite Hin. simpl. fold addr. rewrite Hread. simpl.
  rewrite Hdata. simpl. fold t1. fold fd. fold w. subst t2. rewrite Hw. simpl.
  rewrite He, Hno. reflexivity.
Qed.

Lemma isinstance_USBError_OSError (x : Exc) :
  isinstance x cls_USBError = true -> isinstance x cls_OSError = true.
Proof.
  destruct x as [c n m]. destruct c; simpl; intros H;
    first [ reflexivity | discriminate H ].
Qed.

Lemma usb_reader_body_write_broken :
  isinstance e cls_OSError = false ->
  usb_reader_body env bufsize s =
  (Ok ctl_break,
   mkState (self s) (t2 ++ [ev_print (log_usb_reader_error e)])).
Proof.
  intros He.
  assert (Hu : isinstance e cls_USBError = false).
  { destruct (isinstance e cls_USBError) eqn:E; [ | reflexivity ].
    apply isinstance_USBError_OSError in E. congruence. }
  unfold usb_reader_body, bind, try_except, get_self, call, ret, raise, print,
    sleep, emit.
  simpl. rewrite Hin. simpl. fold addr. rewrite Hread. simpl.
  rewrite Hdata. simpl. fold t1. fold fd. fold w. subst t2. rewrite Hw. simpl.
  rewrite He. simpl. rewrite Hu, isinstance_Exception. simpl.
  rewrite <- !app_assoc. reflexivity.
Qed.

End ReaderData.

Lemma usb_reader_body_no_endpoint env bufsize s :
  in_ep (self s) = None ->
  usb_reader_body env bufsize s =
  (Ok ctl_break,
   mkState (self s)
     (trace s ++ [ev_print (log_usb_reader_error AttributeError_NoneType)])).
Proof.
  intros Hin.
  unfold usb_reader_body, bind, try_except, get_self, raise, ret, print, emit.
  simpl. rewrite Hin. reflexivity.
Qed.

Lemma _usb_reader_loop_unfold' env fuel s :
  _usb_reader_loop env fuel s =
  while_not_should_stop fuel (usb_reader_body env (reader_bufsize (self s))) s.
Proof. reflexivity. Qed.

(** X4: The reader loop, one iteration at a time, on a session not yet
    stopped.  An empty read writes nothing and the loop goes on.  A
    non-empty packet is written whole to the master descriptor: on
    success it is logged and the loop goes on; when the write fails with
    [EBADF] (the descriptor was closed by [stop]) the loop ends normally
    without a log line; any other [OSError] of the write is swallowed
    without a log line and the loop goes on, the packet lost; an exception
    that is not an [OSError] is logged and ends the loop.  Without an IN
    endpoint the loop ends at once, logging the [AttributeError], without
    a USB read. *)
Theorem reader_iteration_outcomes env s :
  _should_stop (self s) = false ->
  let loop fuel := _usb_reader_loop env fuel in
  (in_ep (self s) = None ->
   forall fuel,
     loop (S fuel) s =
     (Ok tt,
      mkState (self s)
        (trace s ++ [ev_print (log_usb_reader_error AttributeError_NoneType)]))) /\
  (forall ep data,
     in_ep (self s) = Some ep ->
     let addr := bEndpointAddress ep in
     let bufsize := reader_bufsize (self s) in
     env_usb_read env (trace s) addr bufsize USB_READ_TIMEOUT = Returns data ->
     let t1 := trace s ++
               [ev_usb_read addr bufsize USB_READ_TIMEOUT (Returns data)] in
     let fd := _master_fd (self s) in
     let w := env_os_write env t1 fd data in
     let t2 := t1 ++ [ev_os_write fd data w] in
     (data = [] ->
      forall fuel,
        loop (S fuel) s =
        loop fuel (mkState (self s) (t1 ++ [ev_sleep LOOP_SLEEP]))) /\
     (data <> [] ->
      (forall n,
         w = Returns n ->
         forall fuel,
           loop (S fuel) s =
           loop fuel
             (mkState (self s)
                (t2 ++ [ev_print (log_usb_to_pty (List.length data));
                        ev_sleep LOOP_SLEEP]))) /\
      (forall e,
         w = Raises e ->
         (isinstance e cls_OSError = true -> errno_is e EBADF = true ->
          forall fuel, loop (S fuel) s = (Ok tt, mkState (self s) t2)) /\
         (isinstance e cls_OSError = true -> errno_is e EBADF = false ->
          forall fuel,
            loop (S fuel) s =
            loop fuel (mkState (self s) (t2 ++ [ev_sleep LOOP_SLEEP]))) /\
         (isinstance e cls_OSError = false ->
          forall fuel,
            loop (S fuel) s =
            (Ok tt,
             mkState (self s)
               (t2 ++ [ev_print (log_usb_reader_error e)])))))).
Proof.
  intros Hs loop. subst loop. split.
  - intros Hin fuel. rewrite _usb_reader_loop_unfold'.
    apply while_break; [ exact Hs | ].
    apply usb_reader_body_no_endpoint. exact Hin.
  - intros ep data Hin addr bufsize Hread t1 fd w t2.
    assert (Hnext : forall c s' fuel,
              usb_reader_body env bufsize s = (Ok c, s') ->
              c <> ctl_break -> self s' = self s ->
              _usb_reader_loop env (S fuel) s = _usb_reader_loop env fuel s').
    { intros c s' fuel Hb Hc Hself. rewrite !_usb_reader_loop_unfold'.
      rewrite Hself. fold bufsize.
      eapply while_next; [ exact Hs | exact Hb | exact Hc ]. }
    assert (Hend : forall s' fuel,
              usb_reader_body env bufsize s = (Ok ctl_break, s') ->
              _usb_reader_loop env (S fuel) s = (Ok tt, s')).
    { intros s' fuel Hb. rewrite _usb_reader_loop_unfold'. fold bufsize.
      apply while_break; assumption. }
    split.
    + intros Hd fuel.
      eapply Hnext;
        [ apply (usb_reader_body_no_data env bufsize s ep Hin data Hread Hd)
        | discriminate | reflexivity ].
    + intros Hd.
      assert (Hne : is_empty data = false)
        by (destruct data; [ congruence | reflexivity ]).
      split.
      * intros n Hw fuel.
        eapply Hnext;
          [ apply (usb_reader_body_written env bufsize s ep Hin data Hread Hne
                     n Hw)
          | discriminate | reflexivity ].
      * intros e Hw. split; [ | split ].
        -- intros He Hno fuel. apply Hend.
           apply (usb_reader_body_closed env bufsize s ep Hin data Hread Hne
                    e Hw He Hno).
        -- intros He Hno fuel.
           eapply Hnext;
             [ apply (usb_reader_body_dropped env bufsize s ep Hin data Hread
                        Hne e Hw He Hno)
             | discriminate | reflexivity ].
        -- intros He fuel. apply Hend.
           apply (usb_reader_body_write_broken env bufsize s ep Hin data Hread
                    Hne e Hw He).
Qed.

(** With the master descriptor closed, the first packet ends the reader
    without a log line. *)
Lemma reader_iteration_outcomes_witness :
  _usb_reader_loop env_master_closed 3 running_session =
  (Ok tt,
   mkState running_bridge
     [ev_usb_read 129 64 200 (Returns two_bytes);
      ev_os_write (Some 3) two_bytes (Raises exc_ebadf)]).
Proof.
  destruct (reader_iteration_outcomes env_master_closed running_session eq_refl)
    as (_ & H).
  destruct (H (mkEndpoint 129 (Some 64)) two_bytes eq_refl eq_refl) as (_ & Hd).
  assert (Hne : two_bytes <> []) by discriminate.
  destruct (Hd Hne) as (_ & He).
  destruct (He exc_ebadf eq_refl) as (Hclosed & _).
  exact (Hclosed eq_refl eq_refl 2%nat).
Defined.

(** ** The terminal loop at rest and at its end *)

Section WriterEdges.

Variables (env : Env) (master : option Z) (s : State).

Let sel := env_select env (trace s) master SELECT_TIMEOUT.
Let t1 := trace s ++ [ev_select master SELECT_TIMEOUT sel].

Lemma pty_writer_body_idle :
  sel = Returns false ->
  pty_writer_body env master s =
  (Ok ctl_end, mkState (self s) (t1 ++ [ev_sleep LOOP_SLEEP])).
Proof.
  intros H.
  unfold pty_writer_body, bind, call, ret, sleep, emit. simpl.
  fold sel. subst t1. rewrite H. reflexivity.
Qed.

Lemma pty_writer_body_select_raises e :
  sel = Raises e ->
  pty_writer_body env master s = (Raise e, mkState (self s) t1).
Proof.
  intros H.
  unfold pty_writer_body, bind, call. simpl.
  fold sel. subst t1. rewrite H. reflexivity.
Qed.

Lemma pty_writer_body_read_raises e :
  sel = Returns true ->
  env_os_read env t1 master PTY_READ_SIZE = Raises e ->
  pty_writer_body env master s =
  (if isinstance e cls_OSError then Ok ctl_break else Raise e,
   mkState (self s) (t1 ++ [ev_os_read master PTY_READ_SIZE (Raises e)])).
Proof.
  intros H Hr.
  unfold pty_writer_body, os_read, bind, try_except, call, ret, raise. simpl.
  fold sel. subst t1. rewrite H. simpl. rewrite H in Hr.
  unfold at_most. rewrite Hr. simpl.
  destruct (isinstance e cls_OSError); reflexivity.
Qed.

End WriterEdges.

Lemma while_raise fuel body s e s' :
  _should_stop (self s) = false ->
  body s = (Raise e, s') ->
  while_not_should_stop (S fuel) body s = (Raise e, s').
Proof.
  intros H Hb. rewrite while_step by exact H.
  apply bind_Raise. exact Hb.
Qed.

(** X5: The terminal loop on a session not yet stopped, outside the transfer
    itself.  When the readiness wait times out, nothing is read and the
    loop goes on after its pause.  When the read of the master descriptor
    raises an [OSError] (as it does once [stop] has closed it), the loop
    ends normally without a log line.  An exception of the readiness wait,
    or one of the read that is not an [OSError], leaves the loop as it
    is. *)
Theorem writer_idle_and_closed env s :
  _should_stop (self s) = false ->
  let master := _master_fd (self s) in
  let loop fuel := _pty_writer_loop env fuel in
  let sel := env_select env (trace s) master SELECT_TIMEOUT in
  let t1 := trace s ++ [ev_select master SELECT_TIMEOUT sel] in
  (sel = Returns false ->
   forall fuel,
     loop (S fuel) s =
     loop fuel (mkState (self s) (t1 ++ [ev_sleep LOOP_SLEEP]))) /\
  (forall e,
     sel = Raises e ->
     forall fuel, loop (S fuel) s = (Raise e, mkState (self s) t1)) /\
  (forall e,
     sel = Returns true ->
     env_os_read env t1 master PTY_READ_SIZE = Raises e ->
     let t2 := t1 ++ [ev_os_read master PTY_READ_SIZE (Raises e)] in
     (isinstance e cls_OSError = true ->
      forall fuel, loop (S fuel) s = (Ok tt, mkState (self s) t2)) /\
     (isinstance e cls_OSError = false ->
      forall fuel, loop (S fuel) s = (Raise e, mkState (self s) t2))).
Proof.
  intros Hs master loop sel t1. subst loop. split; [ | split ].
  - intros H fuel. rewrite !_pty_writer_loop_unfold. simpl self.
    eapply while_next;
      [ exact Hs | apply pty_writer_body_idle; exact H | discriminate ].
  - intros e H fuel. rewrite _pty_writer_loop_unfold.
    apply while_raise; [ exact Hs | ].
    apply pty_writer_body_select_raises. exact H.
  - intros e H Hr t2.
    pose proof (pty_writer_body_read_raises env master s e H Hr) as Hb.
    split; intros He fuel; rewrite He in Hb; rewrite _pty_writer_loop_unfold.
    + apply while_break; assumption.
    + apply while_raise; assumption.
Qed.

Lemma writer_idle_and_closed_witness :
  _pty_writer_loop env_idle 1 running_session =
    _pty_writer_loop env_idle 0
      (mkState running_bridge
         [ev_select (Some 3) SELECT_TIMEOUT (Returns false);
          ev_sleep LOOP_SLEEP]) /\
  _pty_writer_loop env_master_closed 4 running_session =
    (Ok tt,
     mkState running_bridge
       [ev_select (Some 3) SELECT_TIMEOUT (Returns true);
        ev_os_read (Some 3) 4096 (Raises exc_ebadf)]).
Proof.
  destruct (writer_idle_and_closed env_idle running_session eq_refl)
    as (Hidle & _).
  destruct (writer_idle_and_closed env_master_closed running_session eq_refl)
    as (_ & _ & Hclosed).
  split.
  - exact (Hidle eq_refl 0%nat).
  - exact (proj1 (Hclosed exc_ebadf eq_refl eq_refl) eq_refl 3%nat).
Defined.

(** ** Teardown *)

(** The first [stop] of a session, call by call. *)
Lemma stop_trace env s :
  _should_stop (self s) = false ->
  let t1 := trace s ++ [ev_print log_stopping] in
  let c := match _master_fd (self s) with
           | Some fd => if fd =? 0 then [] else [ev_close fd (env_close env t1 fd)]
           | None => []
           end in
  let t2 := t1 ++ c in
  let i := iface (self s) in
  let t3 := t2 ++ [ev_release_interface i (env_release_interface env t2 i)] in
  let a := if _orig_kernel_attached (self s)
           then [ev_attach_kernel_driver i (env_attach_kernel_driver env t3 i)]
           else [] in
  stop env s =
  (Ok tt,
   mkState (set_should_stop true (self s)) (t3 ++ a ++ [ev_print log_stopped])).
Proof.
  intros H. cbv zeta. rewrite stop_run by exact H. rewrite _release_run.
  simpl.
  destruct (_master_fd (self s)) as [fd | ]; simpl;
    [ destruct (fd =? 0); simpl | ];
    destruct (_orig_kernel_attached (self s)); simpl;
    rewrite <- ?app_assoc; simpl; rewrite ?app_nil_r; reflexivity.
Qed.

(** The events of the first [stop] and the stop flag. *)
Lemma stop_teardown_order_aux env s :
  _should_stop (self s) = false ->
  let t1 := trace s ++ [ev_print log_stopping] in
  let c := match _master_fd (self s) with
           | Some fd => if fd =? 0 then [] else [ev_close fd (env_close env t1 fd)]
           | None => []
           end in
  let t2 := t1 ++ c in
  let i := iface (self s) in
  let rel := ev_release_interface i (env_release_interface env t2 i) in
  let a := if _orig_kernel_attached (self s)
           then [ev_attach_kernel_driver i
                   (env_attach_kernel_driver env (t2 ++ [rel]) i)]
           else [] in
  events_since s (snd (stop env s)) =
    ev_print log_stopping :: c ++ rel :: a ++ [ev_print log_stopped] /\
  trace (snd (stop env s)) =
    trace s ++ ev_print log_stopping :: c ++ rel :: a ++ [ev_print log_stopped].
Proof.
  intros H t1 c t2 i rel a. subst t1 c t2 i rel a.
  rewrite (stop_trace env s H). simpl.
  assert (E : forall (x y z w : Trace),
            (((trace s ++ x) ++ y) ++ z) ++ w = trace s ++ x ++ y ++ z ++ w)
    by (intros; rewrite <- !app_assoc; reflexivity).
  split; [ apply events_since_app | ]; rewrite E; reflexivity.
Qed.

(** X6: Teardown order.  The first [stop] of a session logs, closes the
    master descriptor (unless it is [None] or the descriptor 0, which the
    test [if self._master_fd] takes for absent), then releases the
    interface, then reattaches the kernel driver if the claim had
    detached it, then logs; each of these calls is made once, in this
    order, whatever the earlier ones did, and the attributes other than
    the stop flag are left as they were. *)
Theorem stop_teardown_order env s :
  _should_stop (self s) = false ->
  let t1 := trace s ++ [ev_print log_stopping] in
  let c := match _master_fd (self s) with
           | Some fd => if fd =? 0 then [] else [ev_close fd (env_close env t1 fd)]
           | None => []
           end in
  let t2 := t1 ++ c in
  let i := iface (self s) in
  let rel := ev_release_interface i (env_release_interface env t2 i) in
  let a := if _orig_kernel_attached (self s)
           then [ev_attach_kernel_driver i
                   (env_attach_kernel_driver env (t2 ++ [rel]) i)]
           else [] in
  fst (stop env s) = Ok tt /\
  self (snd (stop env s)) = set_should_stop true (self s) /\
  events_since s (snd (stop env s)) =
    ev_print log_stopping :: c ++ rel :: a ++ [ev_print log_stopped].
Proof.
  intros H t1 c t2 i rel a. subst t1 c t2 i rel a.
  rewrite (stop_trace env s H). simpl.
  split; [ reflexivity | ]. split; [ reflexivity | ].
  apply events_since_app. rewrite <- !app_assoc. reflexivity.
Qed.

(** A session whose master descriptor is 0: [stop] releases the interface
    and never closes the descriptor. *)
Lemma stop_teardown_order_witness :
  let s := mkState (set_master_fd (Some 0) running_bridge) [] in
  events_since s (snd (stop env_plain s)) =
  [ev_print log_stopping; ev_release_interface (Some 0) (Returns tt);
   ev_print log_stopped].
Proof.
  intros s.
  exact (proj2 (proj2 (stop_teardown_order env_plain s eq_refl))).
Defined.

(** ** Descriptors of the pseudo-terminal *)

(** [_create_pty], call by call. *)
Lemma _create_pty_run env s :
  _create_pty env s =
  match env_openpty env (trace s) with
  | Raises e =>
      (Raise e, mkState (self s) (trace s ++ [ev_openpty (Raises e)]))
  | Returns (m, sl) =>
      let t1 := trace s ++ [ev_openpty (Returns (m, sl))] in
      let b1 := set_master_fd (Some m) (self s) in
      match env_ttyname env t1 sl with
      | Raises e => (Raise e, mkState b1 (t1 ++ [ev_ttyname sl (Raises e)]))
      | Returns name =>
          let t2 := t1 ++ [ev_ttyname sl (Returns name)] in
          let cl := env_close env t2 sl in
          (match cl with
           | Returns _ => Ok tt
           | Raises e => Raise e
           end,
           mkState (set_slave_name (Some name) b1) (t2 ++ [ev_close sl cl]))
      end
  end.
Proof.
  unfold _create_pty, bind, call, modify_self. simpl.
  destruct (env_openpty env (trace s)) as [[m sl] | e]; simpl; [ | reflexivity ].
  destruct (env_ttyname env _ sl) as [name | e]; simpl; [ | reflexivity ].
  destruct (env_close env _ sl) as [[] | e]; reflexivity.
Qed.

(** X7: Descriptors of a provisioning and of the stop that follows.  Once
    [pty.openpty] has returned the pair, the master descriptor is
    recorded in the session whatever happens next, and [_create_pty]
    never closes it.  The slave descriptor is closed exactly when
    [os.ttyname] returned its name, which is then published; when
    [os.ttyname] raises, the slave descriptor is left open and no name is
    written.  A later first [stop] closes the master descriptor exactly
    once, unless it is the descriptor 0. *)
Theorem provisioning_descriptors env s m sl :
  env_openpty env (trace s) = Returns (m, sl) ->
  _should_stop (self s) = false ->
  let s1 := snd (_create_pty env s) in
  let s2 := snd (stop env s1) in
  let t1 := trace s ++ [ev_openpty (Returns (m, sl))] in
  _master_fd (self s1) = Some m /\
  match env_ttyname env t1 sl with
  | Returns name =>
      _slave_name (self s1) = Some name /\
      filter is_close (events_since s s1) =
        [ev_close sl
           (env_close env (t1 ++ [ev_ttyname sl (Returns name)]) sl)]
  | Raises e =>
      fst (_create_pty env s) = Raise e /\
      _slave_name (self s1) = _slave_name (self s) /\
      filter is_close (events_since s s1) = []
  end /\
  filter is_close (events_since s1 s2) =
    (if m =? 0 then []
     else [ev_close m (env_close env (trace s1 ++ [ev_print log_stopping]) m)]).
Proof.
  intros Hpty Hs s1 s2 t1.
  assert (H1 : _master_fd (self s1) = Some m /\
               _should_stop (self s1) = false).
  { subst s1. rewrite _create_pty_run, Hpty. simpl.
    destruct (env_ttyname env _ sl); simpl; auto. }
  destruct H1 as [Hm Hs1].
  split; [ exact Hm | ]. split.
  - subst s1 t1. rewrite _create_pty_run, Hpty. simpl.
    destruct (env_ttyname env _ sl) as [name | e]; simpl.
    + split; [ reflexivity | ].
      rewrite <- !app_assoc.
      erewrite events_since_app by reflexivity. reflexivity.
    + split; [ reflexivity | ]. split; [ reflexivity | ].
      rewrite <- !app_assoc.
      erewrite events_since_app by reflexivity. reflexivity.
  - destruct (stop_teardown_order_aux env s1 Hs1) as [Ht _].
    subst s2. rewrite Ht. rewrite Hm.
    destruct (m =? 0); simpl;
      rewrite filter_app; simpl;
      destruct (_orig_kernel_attached (self s1)); reflexivity.
Qed.

(** The slave has no name: it is left open, and the master is closed by
    [stop]. *)
Lemma provisioning_descriptors_witness :
  let s1 := snd (_create_pty env_no_ttyname fresh_session) in
  _master_fd (self s1) = Some 3 /\
  filter is_close (events_since fresh_session s1) = [] /\
  filter is_close (events_since s1 (snd (stop env_no_ttyname s1))) =
    [ev_close 3 (Returns tt)].
Proof.
  intros s1.
  destruct (provisioning_descriptors env_no_ttyname fresh_session 3 4
              eq_refl eq_refl) as (Hm & Hsl & Hstop).
  split; [ exact Hm | ].
  split; [ exact (proj2 (proj2 Hsl)) | exact Hstop ].
Defined.

(** ** How start ends *)

Lemma bind_reach {A B} (R : State -> State -> Prop) `{Frame R}
  (m : M A) (k : A -> M B) (P : Res B * State -> Prop) (s0 s : State) :
  R s0 s ->
  preserves R m ->
  (forall r s1, R s0 s1 -> (forall u, r <> Ok u) -> P (r, s1)) ->
  (forall a s1, R s0 s1 -> P (k a s1)) ->
  P (bind m k s).
Proof.
  intros H0 Hm Hfail Hok. unfold bind. specialize (Hm s).
  destruct (m s) as [[a | e |] s1]; simpl in Hm;
    assert (H1 : R s0 s1) by (eapply frame_trans; eauto).
  - apply Hok. exact H1.
  - apply Hfail; [ exact H1 | discriminate ].
  - apply Hfail; [ exact H1 | discriminate ].
Qed.

Lemma start_cases env fuel s : start_outcome env fuel s (start env fuel s).
Proof.
  assert (Hfail : forall (r : Res unit) s1,
            unchanged is_release _should_stop s s1 ->
            (forall u, r <> Ok u) ->
            start_outcome env fuel s (r, s1)).
  { intros r s1 H1 Hr. right. exists r, s1. auto. }
  unfold start.
  apply (bind_reach (unchanged is_release _should_stop) _ _ _ s s);
    [ apply frame_refl | apply _find_endpoints_release | exact Hfail | ].
  intros _ s1 H1. cbv beta.
  apply (bind_reach (unchanged is_release _should_stop) _ _ _ s s1);
    [ exact H1 | apply (@preserves_get_self _ _) | exact Hfail | ].
  intros b s2 H2. cbv beta.
  apply (bind_reach (unchanged is_release _should_stop) _ _ _ s s2);
    [ exact H2 | preserves_tac | exact Hfail | ].
  intros _ s3 H3. cbv beta.
  apply (bind_reach (unchanged is_release _should_stop) _ _ _ s s3);
    [ exact H3 | apply _claim_release | exact Hfail | ].
  intros _ s4 H4. cbv beta.
  apply (bind_reach (unchanged is_release _should_stop) _ _ _ s s4);
    [ exact H4 | apply _create_pty_release | exact Hfail | ].
  intros _ s5 H5. cbv beta.
  apply (bind_reach (unchanged is_release _should_stop) _ _ _ s s5);
    [ exact H5 | apply (@preserves_get_self _ _) | exact Hfail | ].
  intros b' s6 H6. cbv beta.
  apply (bind_reach (unchanged is_release _should_stop) _ _ _ s s6);
    [ exact H6 | preserves_tac | exact Hfail | ].
  intros _ s7 H7. cbv beta.
  apply (bind_reach (unchanged is_release _should_stop) _ _ _ s s7);
    [ exact H7 | preserves_tac | exact Hfail | ].
  intros _ s8 H8. cbv beta.
  left. exists s8. auto.
Qed.

Lemma app_cons_assoc {A} (t0 : list A) (p : A) (c x : list A) :
  t0 ++ p :: c ++ x = (t0 ++ p :: c) ++ x.
Proof. rewrite <- app_assoc. reflexivity. Qed.

(** The first [stop] leaves a trace that ends in a teardown. *)
Lemma stop_ends_released env s :
  _should_stop (self s) = false ->
  fst (stop env s) = Ok tt /\
  _should_stop (self (snd (stop env s))) = true /\
  ends_released (trace (snd (stop env s))).
Proof.
  intros H. split; [ apply stop_Ok | ]. split; [ apply stop_sets_flag | ].
  destruct (stop_teardown_order_aux env s H) as [_ Ht]. rewrite Ht.
  match goal with
  | |- ends_released (?t0 ++ ?p :: ?c ++ ev_release_interface ?i ?r :: ?a ++ ?l) =>
      exists (t0 ++ p :: c), (a ++ l), i, r
  end.
  split.
  - apply app_cons_assoc.
  - destruct (_orig_kernel_attached (self s)); reflexivity.
Qed.

Lemma ends_released_print t msg :
  ends_released t -> ends_released (t ++ [ev_print msg]).
Proof.
  intros (t1 & t2 & i & r & Ht & Hq).
  exists t1, (t2 ++ [ev_print msg]), i, r. split.
  - rewrite Ht, <- app_assoc. reflexivity.
  - rewrite forallb_app, Hq. reflexivity.
Qed.

(** The guarded loop always tears down, unless it runs out of fuel. *)
Lemma guarded_loop_tears_down env fuel s :
  _should_stop (self s) = false ->
  let x := try_finally (_pty_writer_loop env fuel) (stop env) s in
  fst x <> OutOfFuel ->
  fst x = fst (_pty_writer_loop env fuel s) /\
  _should_stop (self (snd x)) = true /\
  ends_released (trace (snd x)).
Proof.
  intros Hs x Hx. subst x. unfold try_finally in *.
  destruct (_pty_writer_loop_calls env fuel s) as [_ Hself].
  destruct (_pty_writer_loop env fuel s) as [r s6] eqn:El. simpl in Hself.
  assert (Hs6 : _should_stop (self s6) = false) by (rewrite Hself; exact Hs).
  destruct (stop_ends_released env s6 Hs6) as (Hok & Hflag & Hrel).
  destruct (stop env s6) as [rs s7]. simpl in *. subst rs.
  destruct r as [[] | e |]; simpl in *; auto. congruence.
Qed.

Lemma start_dichotomy env fuel s :
  _should_stop (self s) = false ->
  fst (start env fuel s) <> OutOfFuel ->
  let s' := snd (start env fuel s) in
  (_should_stop (self s') = true /\ ends_released (trace s')) \/
  ((exists e, fst (start env fuel s) = Raise e) /\
   _should_stop (self s') = false /\
   filter is_release (trace s') = filter is_release (trace s)).
Proof.
  intros Hs Hx s'. subst s'.
  destruct (start_cases env fuel s)
    as [(s5 & [Hf Hflag] & E) | (r & s1 & E & Hr & [Hf Hflag])].
  - left. rewrite E in *.
    assert (Hs5 : _should_stop (self s5) = false) by congruence.
    destruct (guarded_loop_tears_down env fuel s5 Hs5 Hx) as (_ & H1 & H2).
    auto.
  - right. rewrite E in *. simpl in *.
    split; [ | split; [ congruence | exact Hf ] ].
    destruct r as [u | e |]; [ exfalso; eapply Hr; reflexivity | eauto | ].
    congruence.
Qed.

(** X8: How [start] ends on a session that was not stopped, unless it runs
    out of fuel.  Either it ends with the session torn down, the stop
    flag set and the trace ending in the USB release followed by nothing
    but the reattachment of the kernel driver and log lines; or it raises
    with the stop flag still clear and without a single call of the
    release path, having failed before the terminal loop.  It never
    returns normally without the teardown. *)
Theorem start_tears_down_or_fails_early env fuel s :
  _should_stop (self s) = false ->
  fst (start env fuel s) <> OutOfFuel ->
  let s' := snd (start env fuel s) in
  ((_should_stop (self s') = true /\ ends_released (trace s')) \/
   ((exists e, fst (start env fuel s) = Raise e) /\
    _should_stop (self s') = false /\
    filter is_release (trace s') = filter is_release (trace s))) /\
  (fst (start env fuel s) = Ok tt ->
   _should_stop (self s') = true /\ ends_released (trace s')).
Proof.
  intros Hs Hx s'.
  pose proof (start_dichotomy env fuel s Hs Hx) as D. fold s' in D.
  split; [ exact D | ].
  intros Hok. destruct D as [D | ((e & He) & _)]; [ exact D | congruence ].
Qed.

Lemma start_tears_down_or_fails_early_witness :
  (_should_stop (self (snd (start env_plain 1 fresh_session))) = true /\
   ends_released (trace (snd (start env_plain 1 fresh_session)))) /\
  _should_stop (self (snd (start env_no_pty 1 fresh_session))) = false.
Proof.
  assert (H1 : fst (start env_plain 1 fresh_session) <> OutOfFuel)
    by (vm_compute; discriminate).
  destruct (start_tears_down_or_fails_early env_plain 1 fresh_session
              eq_refl H1) as (_ & Hok).
  split; [ apply Hok; vm_compute; reflexivity | vm_compute; reflexivity ].
Defined.

(** ** How main ends *)

Lemma bind_OutOfFuel {A B} (m : M A) (k : A -> M B) s s1 :
  m s = (OutOfFuel, s1) -> bind m k s = (OutOfFuel, s1).
Proof. intros H. unfold bind. rewrite H. reflexivity. Qed.

(** [main] up to the call of [start], once a device is found. *)
Lemma main_after_find env vid pid fuel sm dev s0 :
  find_printer_device env vid pid sm = (Ok (Some dev), s0) ->
  main env vid pid fuel sm =
  try_except
    (start env fuel ;; ret 0)
    (fun e =>
       if isinstance e cls_Exception
       then print (log_error e) ;; stop env ;; ret 3
       else raise e)
    (mkState __init__
       (trace s0 ++
        [ev_set_configuration (env_set_configuration env (trace s0))])).
Proof.
  intros Hfind. unfold main.
  assert (Hf : try_except
                 (dev <- find_printer_device env vid pid ;; ret (inr dev))
                 (fun e =>
                    if isinstance e cls_NoBackendError
                    then print log_no_backend ;; ret (inl 1)
                    else raise e) sm = (Ok (inr (Some dev)), s0)).
  { unfold try_except. rewrite (bind_Ok _ _ _ _ _ Hfind). reflexivity. }
  rewrite (bind_Ok _ _ _ _ _ Hf).
  assert (Hc : try_except
                 (call (env_set_configuration env) ev_set_configuration)
                 (fun e => if isinstance e cls_Exception then ret tt else raise e)
                 s0 =
               (Ok tt,
                mkState (self s0)
                  (trace s0 ++
                   [ev_set_configuration (env_set_configuration env (trace s0))]))).
  { unfold try_except, call.
    destruct (env_set_configuration env (trace s0)) as [[] | e0]; simpl;
      rewrite ?isinstance_Exception; reflexivity. }
  rewrite (bind_Ok _ _ _ _ _ Hc).
  erewrite bind_Ok by reflexivity.
  reflexivity.
Qed.

(** X9: End to end.  Once a device is found, and unless the run is cut short
    by the iteration bound, [main] never raises: it exits with status 0
    when [start] returned and with status 3 when [start] raised.  Either
    way the session ends stopped, and the trace ends in the USB release
    followed by nothing but the reattachment of the kernel driver and log
    lines: whatever the session claimed or opened, no call of the main
    thread follows the release. *)
Theorem main_ends_released env vid pid fuel sm dev s0 :
  find_printer_device env vid pid sm = (Ok (Some dev), s0) ->
  fst (main env vid pid fuel sm) <> OutOfFuel ->
  let s_new := mkState __init__
                 (trace s0 ++
                  [ev_set_configuration
                     (env_set_configuration env (trace s0))]) in
  let x := main env vid pid fuel sm in
  ((fst x = Ok 0 /\ fst (start env fuel s_new) = Ok tt) \/
   (fst x = Ok 3 /\ exists e, fst (start env fuel s_new) = Raise e)) /\
  _should_stop (self (snd x)) = true /\
  ends_released (trace (snd x)).
Proof.
  intros Hfind Hx s_new x. subst x.
  rewrite (main_after_find env vid pid fuel sm dev s0 Hfind) in *.
  fold s_new in Hx. fold s_new.
  assert (Hs : _should_stop (self s_new) = false) by reflexivity.
  unfold try_except in *.
  destruct (start env fuel s_new) as [r s1] eqn:Es.
  destruct r as [[] | e |].
  - rewrite (bind_Ok _ _ _ _ _ Es) in *. simpl.
    assert (Hne : fst (start env fuel s_new) <> OutOfFuel)
      by (rewrite Es; discriminate).
    destruct (start_dichotomy env fuel s_new Hs Hne) as [D | ((e & He) & _)];
      rewrite Es in *; simpl in *; [ | discriminate ].
    split; [ left; auto | exact D ].
  - rewrite (bind_Raise _ _ _ _ _ Es) in *.
    rewrite isinstance_Exception in *.
    assert (Hne : fst (start env fuel s_new) <> OutOfFuel)
      by (rewrite Es; discriminate).
    pose proof (start_dichotomy env fuel s_new Hs Hne) as D.
    rewrite Es in D. simpl in D.
    set (s4 := mkState (self s1) (trace s1 ++ [ev_print (log_error e)])).
    assert (E : (print (log_error e) ;; stop env ;; ret 3) s1 =
                (Ok 3, snd (stop env s4))).
    { erewrite bind_Ok by reflexivity. fold s4.
      pose proof (stop_Ok env s4) as Hok. unfold bind.
      destruct (stop env s4) as [[[] | e1 |] s5]; simpl in *;
        try discriminate; reflexivity. }
    rewrite E. simpl.
    split; [ right; eauto | ].
    destruct D as [[Hflag Hrel] | (_ & Hflag & _)].
    + rewrite (stop_when_stopped env s4) by exact Hflag. simpl.
      split; [ exact Hflag | apply ends_released_print; exact Hrel ].
    + destruct (stop_ends_released env s4 Hflag) as (_ & H1 & H2). auto.
  - rewrite (bind_OutOfFuel _ _ _ _ Es) in Hx. simpl in Hx. congruence.
Qed.

Lemma main_ends_released_witness :
  fst (main env_no_pty None None 1 fresh_session) = Ok 3 /\
  fst (main env_plain None None 1 fresh_session) = Ok 0 /\
  ends_released (trace (snd (main env_no_pty None None 1 fresh_session))).
Proof.
  set (dev := mkDevice [sample_cfg] None).
  set (s0 := mkState __init__ [ev_find_all (Returns [dev])]).
  assert (F1 : find_printer_device env_no_pty None None fresh_session =
               (Ok (Some dev), s0)) by (vm_compute; reflexivity).
  assert (N1 : fst (main env_no_pty None None 1 fresh_session) <> OutOfFuel)
    by (vm_compute; discriminate).
  destruct (main_ends_released env_no_pty None None 1 fresh_session dev s0
              F1 N1) as (_ & _ & Hrel).
  split; [ vm_compute; reflexivity | ].
  split; [ vm_compute; reflexivity | exact Hrel ].
Defined.

(** ** Locating the device *)

Lemma has_printer_interface_spec (d : Device) :
  has_printer_interface d = true <->
  exists cfg intf,
    In cfg (dev_configurations d) /\ In intf (cfg_iter cfg) /\
    bInterfaceClass intf = 7.
Proof.
  unfold has_printer_interface. rewrite existsb_exists. split.
  - intros (cfg & Hc & Hi). apply existsb_exists in Hi.
    destruct Hi as (intf & Hi & Hcl). apply Z.eqb_eq in Hcl. eauto.
  - intros (cfg & intf & Hc & Hi & Hcl). exists cfg. split; [ exact Hc | ].
    apply existsb_exists. exists intf. split; [ exact Hi | ].
    apply Z.eqb_eq. exact Hcl.
Qed.

(** X10: [find_printer_device].  With both identifiers it makes the one
    direct lookup and returns its answer, found or not.  With either
    missing, the other is ignored: it enumerates the devices once and
    returns the first one, in enumeration order, that has an interface of
    class 7 in any of its configurations, and [None] when there is none;
    a device whose descriptors cannot be read is passed over.  An
    exception of the lookup or of the enumeration leaves the function as
    it is. *)
Theorem find_printer_device_result env vid pid s :
  (forall v p,
     vid = Some v -> pid = Some p ->
     let r := env_find env (trace s) v p in
     find_printer_device env vid pid s =
     (match r with
      | Returns d => Ok d
      | Raises e => Raise e
      end,
      mkState (self s) (trace s ++ [ev_find v p r]))) /\
  (vid = None \/ pid = None ->
   let r := env_find_all env (trace s) in
   snd (find_printer_device env vid pid s) =
     mkState (self s) (trace s ++ [ev_find_all r]) /\
   (forall e, r = Raises e -> fst (find_printer_device env vid pid s) = Raise e) /\
   (forall devs,
      r = Returns devs ->
      (forall l1 d l2,
         devs = l1 ++ d :: l2 ->
         has_printer_interface d = true ->
         Forall (fun d' => has_printer_interface d' = false) l1 ->
         fst (find_printer_device env vid pid s) = Ok (Some d)) /\
      (Forall (fun d' => has_printer_interface d' = false) devs ->
       fst (find_printer_device env vid pid s) = Ok None))) /\
  (forall d,
     has_printer_interface d = true <->
     exists cfg intf,
       In cfg (dev_configurations d) /\ In intf (cfg_iter cfg) /\
       bInterfaceClass intf = 7).
Proof.
  split; [ | split; [ | apply has_printer_interface_spec ] ].
  - intros v p -> ->. unfold find_printer_device, call. simpl.
    destruct (env_find env (trace s) v p); reflexivity.
  - intros Hnone r.
    assert (E : find_printer_device env vid pid s =
                bind (call (env_find_all env) ev_find_all)
                     (fun all_devs => ret (find has_printer_interface all_devs))
                     s).
    { unfold find_printer_device.
      destruct Hnone as [-> | ->]; [ reflexivity | ].
      destruct vid; reflexivity. }
    rewrite E. unfold bind, call, ret. fold r.
    destruct r as [devs | e]; simpl.
    + split; [ reflexivity | ]. split; [ discriminate | ].
      intros devs' Hd. injection Hd as <-. split.
      * intros l1 d l2 -> Hp Hl. rewrite find_first; auto.
      * intros Hl. rewrite find_none_Forall; auto.
    + split; [ reflexivity | ]. split.
      * intros e' He. injection He as <-. reflexivity.
      * discriminate.
Qed.

Lemma find_printer_device_result_witness :
  fst (find_printer_device env_three_devices (Some 1208) None fresh_session) =
    Ok (Some printer_device) /\
  fst (find_printer_device env_three_devices (Some 1208) (Some 514)
         fresh_session) = Ok None.
Proof.
  destruct (find_printer_device_result env_three_devices (Some 1208) None
              fresh_session) as (_ & Hscan & _).
  destruct (Hscan (or_intror eq_refl)) as (_ & _ & Hdevs).
  destruct (Hdevs _ eq_refl) as (Hfirst & _).
  split.
  - apply (Hfirst [hub_device; mute_device] printer_device []);
      [ reflexivity | reflexivity | repeat constructor ].
  - destruct (find_printer_device_result env_three_devices (Some 1208)
                (Some 514) fresh_session) as (Hdirect & _).
    rewrite (Hdirect 1208 514 eq_refl eq_refl). reflexivity.
Defined.

(** ** Launch failures *)

Lemma find_printer_device_quiet env vid pid :
  preserves (unchanged is_session_call (fun b => b))
            (find_printer_device env vid pid).
Proof. unfold find_printer_device. preserves_tac. Qed.

Lemma find_printer_device_extends env vid pid :
  preserves extends (find_printer_device env vid pid).
Proof. unfold find_printer_device. preserves_tac. Qed.

Lemma find_printer_device_terminates env vid pid s :
  fst (find_printer_device env vid pid s) <> OutOfFuel.
Proof.
  unfold find_printer_device, bind, call, ret.
  repeat (simpl; case_step); simpl; discriminate.
Qed.

(** X11: [main] without a device.  When the lookup raises [NoBackendError],
    [main] logs and exits with status 1; when no device is found it logs
    twice and exits with status 2; any other exception of the lookup
    leaves [main] as it is.  In all three cases the session object of the
    state is untouched and no call has been made on a device or a
    descriptor. *)
Theorem main_without_device env vid pid fuel sm :
  let f := find_printer_device env vid pid sm in
  let x := main env vid pid fuel sm in
  (forall e s0,
     f = (Raise e, s0) ->
     (isinstance e cls_NoBackendError = true ->
      x = (Ok 1, mkState (self s0) (trace s0 ++ [ev_print log_no_backend]))) /\
     (isinstance e cls_NoBackendError = false -> x = (Raise e, s0))) /\
  (forall s0,
     f = (Ok None, s0) ->
     x = (Ok 2,
          mkState (self s0)
            (trace s0 ++ [ev_print log_no_printer; ev_print log_use_lsusb]))) /\
  ((forall d, fst f <> Ok (Some d)) ->
   self (snd x) = self sm /\
   filter is_session_call (events_since sm (snd x)) = []).
Proof.
  intros f x.
  assert (Hraise : forall e s0,
            f = (Raise e, s0) ->
            (isinstance e cls_NoBackendError = true ->
             x = (Ok 1,
                  mkState (self s0) (trace s0 ++ [ev_print log_no_backend]))) /\
            (isinstance e cls_NoBackendError = false -> x = (Raise e, s0))).
  { intros e s0 Hf. subst f x. unfold main.
    split; intros He.
    - rewrite (bind_Ok _ _ sm (inl 1)
                 (mkState (self s0) (trace s0 ++ [ev_print log_no_backend])));
        [ reflexivity | ].
      unfold try_except. rewrite (bind_Raise _ _ _ _ _ Hf), He. reflexivity.
    - apply bind_Raise.
      unfold try_except. rewrite (bind_Raise _ _ _ _ _ Hf), He. reflexivity. }
  assert (Hnone : forall s0,
            f = (Ok None, s0) ->
            x = (Ok 2,
                 mkState (self s0)
                   (trace s0 ++
                    [ev_print log_no_printer; ev_print log_use_lsusb]))).
  { intros s0 Hf. subst f x. unfold main.
    rewrite (bind_Ok _ _ sm (inr None) s0)
      by (unfold try_except; rewrite (bind_Ok _ _ _ _ _ Hf); reflexivity).
    unfold bind, print, emit, ret. simpl.
    rewrite <- app_assoc. reflexivity. }
  split; [ exact Hraise | ]. split; [ exact Hnone | ].
  intros Hno.
  destruct (find_printer_device_quiet env vid pid sm) as [Hq Hself].
  destruct (find_printer_device_extends env vid pid sm) as [t Ht].
  fold f in Hq, Hself, Ht.
  destruct f as [r s0] eqn:Ef. simpl in *.
  assert (Hfilter : forall s' l,
            trace s' = trace s0 ++ l ->
            forallb is_print l = true ->
            filter is_session_call (events_since sm s') = []).
  { intros s' l Hs' Hl.
    rewrite (events_since_app sm s' (t ++ l))
      by (rewrite Hs', Ht, app_assoc; reflexivity).
    rewrite filter_app.
    assert (Ht0 : filter is_session_call t = []).
    { rewrite Ht, filter_app in Hq.
      apply (app_inv_head (filter is_session_call (trace sm))).
      rewrite app_nil_r. exact Hq. }
    rewrite Ht0. simpl. clear Hs'.
    induction l as [|ev l IH]; simpl in *; [ reflexivity | ].
    apply andb_true_iff in Hl. destruct Hl as [Hev Hl].
    destruct ev; simpl in *; try discriminate. apply IH. exact Hl. }
  destruct r as [[d | ] | e |].
  - exfalso. eapply Hno. reflexivity.
  - rewrite (Hnone s0 eq_refl). simpl. split; [ exact Hself | ].
    eapply Hfilter; [ simpl; reflexivity | reflexivity ].
  - destruct (Hraise e s0 eq_refl) as [H1 H2].
    destruct (isinstance e cls_NoBackendError) eqn:He.
    + rewrite (H1 eq_refl). simpl. split; [ exact Hself | ].
      eapply Hfilter; [ simpl; reflexivity | reflexivity ].
    + rewrite (H2 eq_refl). simpl. split; [ exact Hself | ].
      apply (Hfilter s0 []); [ rewrite app_nil_r; reflexivity | reflexivity ].
  - exfalso. apply (find_printer_device_terminates env vid pid sm).
    fold f. rewrite Ef. reflexivity.
Qed.

Lemma main_without_device_witness :
  main env_no_backend (Some 1208) (Some 514) 1 fresh_session =
    (Ok 1,
     mkState __init__
       [ev_find 1208 514 (Raises exc_no_backend); ev_print log_no_backend]) /\
  main env_no_device None None 1 fresh_session =
    (Ok 2,
     mkState __init__
       [ev_find_all (Returns []); ev_print log_no_printer;
        ev_print log_use_lsusb]).
Proof.
  destruct (main_without_device env_no_backend (Some 1208) (Some 514) 1
              fresh_session) as (Hraise & _).
  destruct (main_without_device env_no_device None None 1 fresh_session)
    as (_ & Hnone & _).
  split.
  - apply (Hraise exc_no_backend
             (mkState __init__ [ev_find 1208 514 (Raises exc_no_backend)])
             eq_refl).
    reflexivity.
  - apply (Hnone (mkState __init__ [ev_find_all (Returns [])]) eq_refl).
Defined.

(** ** Resolution failures *)

Lemma _find_endpoints_raises env s e s1 :
  _find_endpoints env s = (Raise e, s1) ->
  let r := env_get_active_configuration env (trace s) in
  s1 = mkState (self s) (trace s ++ [ev_get_active_configuration r]) /\
  match r with
  | Raises e' => e = e'
  | Returns cfg => select_interface cfg = None /\ e = IndexError_interface cfg
  end.
Proof.
  unfold _find_endpoints, bind, call, modify_self, raise, ret. simpl.
  destruct (env_get_active_configuration env (trace s)) as [cfg | e']; simpl.
  - destruct (select_interface cfg) as [intf | ]; simpl.
    + destruct (scan_endpoints (endpoints intf)). simpl. discriminate.
    + intros H. injection H as <- <-. auto.
  - intros H. injection H as <- <-. auto.
Qed.

Lemma cfg_getitem_0_0_None cfg :
  cfg_getitem cfg 0 0 = None <-> cfg = [] \/ exists rest, cfg = [] :: rest.
Proof.
  unfold cfg_getitem. destruct cfg as [|alts rest]; simpl.
  - split; auto.
  - destruct alts as [|i alts]; simpl; split.
    + intros _. right. eauto.
    + reflexivity.
    + discriminate.
    + intros [H | [rest' H]]; discriminate.
Qed.

(** X12: Resolution failures.  When the active configuration cannot be read,
    [start] raises that error.  When it has no interface of class 7 and
    no interface (0, 0) either, [start] raises the [IndexError] of
    [cfg[(0,0)]]: the one for the interface index when the configuration
    is empty, the one for the alternate setting when interface 0 has no
    setting; these are the only configurations without an interface
    (0, 0).  In both cases the only call made is the query of the
    configuration, and the attributes of the session are as they were:
    nothing was claimed, opened or spawned. *)
Theorem start_fails_at_resolution env fuel s :
  let r := env_get_active_configuration env (trace s) in
  let s1 := mkState (self s) (trace s ++ [ev_get_active_configuration r]) in
  (forall e, r = Raises e -> start env fuel s = (Raise e, s1)) /\
  (forall cfg,
     r = Returns cfg ->
     Forall (fun i => bInterfaceClass i <> 7) (cfg_iter cfg) ->
     cfg_getitem cfg 0 0 = None ->
     start env fuel s = (Raise (IndexError_interface cfg), s1) /\
     exc_class (IndexError_interface cfg) = cls_IndexError /\
     (cfg = [] ->
      exc_msg (IndexError_interface cfg) = "Invalid interface index 0"%string) /\
     (cfg <> [] ->
      nth_error cfg 0 = Some [] /\
      exc_msg (IndexError_interface cfg) =
        "Invalid alternate setting index 0"%string)) /\
  (forall e s',
     _find_endpoints env s = (Raise e, s') ->
     start env fuel s = (Raise e, s') /\ s' = s1).
Proof.
  intros r s1.
  assert (Hprop : forall e s',
            _find_endpoints env s = (Raise e, s') ->
            start env fuel s = (Raise e, s') /\ s' = s1).
  { intros e s' Hf. split.
    - unfold start. apply bind_Raise. exact Hf.
    - apply (_find_endpoints_raises env s e s' Hf). }
  split; [ | split; [ | exact Hprop ] ].
  - intros e Hr.
    assert (Hf : _find_endpoints env s = (Raise e, s1)).
    { unfold _find_endpoints, bind, call. simpl. fold r. subst s1.
      rewrite Hr. reflexivity. }
    apply (Hprop e s1 Hf).
  - intros cfg Hr Hcls H00.
    assert (Hsel : select_interface cfg = None)
      by (rewrite select_interface_fallback; assumption).
    assert (Hf : _find_endpoints env s = (Raise (IndexError_interface cfg), s1)).
    { unfold _find_endpoints, bind, call, raise. simpl. fold r. subst s1.
      rewrite Hr. simpl. rewrite Hsel. reflexivity. }
    split; [ apply (Hprop _ s1 Hf) | ].
    apply cfg_getitem_0_0_None in H00.
    destruct H00 as [-> | [rest ->]].
    + split; [ reflexivity | ]. split; [ reflexivity | ].
      intros H. congruence.
    + split; [ reflexivity | ]. split; [ discriminate | ].
      intros _. split; reflexivity.
Qed.

(** A configuration without interfaces. *)
Lemma start_fails_at_resolution_witness :
  let env := sample_env [] (Returns false) (Returns tt) (Returns tt)
               (Returns (3, 4)) (Returns true) (Returns []) (Returns [])
               (Returns 0) in
  start env 1 fresh_session =
  (Raise (mkExc cls_IndexError None "Invalid interface index 0"),
   mkState __init__ [ev_get_active_configuration (Returns [])]).
Proof.
  intros env.
  destruct (start_fails_at_resolution env 1 fresh_session) as (_ & H & _).
  apply (H [] eq_refl); [ constructor | reflexivity ].
Defined.

(** ** Starting a stopped session *)

Section ExtendFrame.

Variable env : Env.





End ExtendFrame.



(** ** Identifiers on the command line *)

Section ParsingFacts.

Variable int : string -> Z -> Outcome Z.

Lemma parse_vid_pid_plain s :
  String.prefix "0x" s || String.prefix "0X" s = false ->
  parse_vid_pid int (Some s) =
  match int s 0 with
  | Returns n => Returns (Some n)
  | Raises _ => Returns None
  end.
Proof.
  intros H. unfold parse_vid_pid. rewrite H.
  destruct (int s 0) as [n | e]; [ reflexivity | ].
  rewrite isinstance_Exception. reflexivity.
Qed.

Lemma parse_arg_plain s :
  String.prefix "0x" s || String.prefix "0X" s = false ->
  parse_arg int (Some s) =
  match s with
  | ""%string => Returns None
  | _ => match int s 0 with
         | Returns n => Returns (Some n)
         | Raises _ => Returns None
         end
  end.
Proof.
  intros H. unfold parse_arg. destruct s as [|c s']; [ reflexivity | ].
  apply parse_vid_pid_plain. exact H.
Qed.

Lemma parse_arg_hex s :
  String.prefix "0x" s || String.prefix "0X" s = true ->
  parse_arg int (Some s) =
  match int s 16 with
  | Returns n => Returns (Some n)
  | Raises e => Raises e
  end.
Proof.
  intros H. unfold parse_arg. destruct s as [|c s'].
  - simpl in H. discriminate.
  - unfold parse_vid_pid. rewrite H. reflexivity.
Qed.

Lemma main_without_vid env p fuel :
  main env None p fuel = main env None None fuel.
Proof. destruct p; reflexivity. Qed.

(** X14: Identifiers on the command line.  [main] parses [--vid], then
    [--pid], then goes on with the two results; an argument that raises
    stops it there, before any call on the USB side, the error of
    [--vid] first.  An argument that is missing or empty is absent.  One
    that begins with [0x] or [0X] is [int(s, 16)], and the error of
    [int] is raised.  Any other is [int(s, 0)], and is taken for absent
    when [int] rejects it.  When [--vid] comes out absent and [--pid]
    does not raise, [--pid] is ignored and the devices are enumerated. *)
Theorem unparsable_vid env arg_vid arg_pid fuel s :
  main_args int env arg_vid arg_pid fuel s =
    match parse_arg int arg_vid with
    | Raises e => (Raise e, s)
    | Returns v =>
        match parse_arg int arg_pid with
        | Raises e => (Raise e, s)
        | Returns p => main env v p fuel s
        end
    end /\
  (forall a,
     (a = None \/ a = Some ""%string -> parse_arg int a = Returns None) /\
     (forall v,
        a = Some v ->
        String.prefix "0x" v || String.prefix "0X" v = true ->
        parse_arg int a =
        match int v 16 with
        | Returns n => Returns (Some n)
        | Raises e => Raises e
        end) /\
     (forall v,
        a = Some v -> v <> ""%string ->
        String.prefix "0x" v || String.prefix "0X" v = false ->
        parse_arg int a =
        match int v 0 with
        | Returns n => Returns (Some n)
        | Raises _ => Returns None
        end)) /\
  (forall p,
     parse_arg int arg_vid = Returns None ->
     parse_arg int arg_pid = Returns p ->
     main_args int env arg_vid arg_pid fuel s = main env None None fuel s /\
     find_printer_device env None p s =
       bind (call (env_find_all env) ev_find_all)
            (fun all_devs => ret (find has_printer_interface all_devs)) s) /\
  (forall e,
     parse_arg int arg_vid = Returns None ->
     parse_arg int arg_pid = Raises e ->
     main_args int env arg_vid arg_pid fuel s = (Raise e, s)).
Proof.
  assert (Hmain : main_args int env arg_vid arg_pid fuel s =
                  match parse_arg int arg_vid with
                  | Raises e => (Raise e, s)
                  | Returns v =>
                      match parse_arg int arg_pid with
                      | Raises e => (Raise e, s)
                      | Returns p => main env v p fuel s
                      end
                  end).
  { unfold main_args, bind, lift_outcome.
    destruct (parse_arg int arg_vid) as [v | e]; [ | reflexivity ].
    destruct (parse_arg int arg_pid) as [p | e]; reflexivity. }
  split; [ exact Hmain | ]. split; [ | split ].
  - intros a. split; [ | split ].
    + intros [-> | ->]; reflexivity.
    + intros v -> Hpre. apply parse_arg_hex. exact Hpre.
    + intros v -> Hne Hpre. rewrite parse_arg_plain by exact Hpre.
      destruct v; [ congruence | reflexivity ].
  - intros p Hv Hp. rewrite Hmain, Hv, Hp. split.
    + rewrite main_without_vid. reflexivity.
    + destruct p; reflexivity.
  - intros e Hv Hp. rewrite Hmain, Hv, Hp. reflexivity.
Qed.

End ParsingFacts.

(** A decimal-looking [--vid] that [int] rejects: with a [--pid] that
    parses the devices are enumerated; with a [--pid] in [0x] form that
    [int] rejects, [main] raises before anything else. *)
Lemma unparsable_vid_witness :
  main_args sample_int env_three_devices (Some "4b8"%string)
            (Some "514"%string) 1 fresh_session =
    main env_three_devices None None 1 fresh_session /\
  fst (find_printer_device env_three_devices None (Some 514) fresh_session) =
    Ok (Some printer_device) /\
  main_args sample_int env_three_devices (Some "4b8"%string)
            (Some "0x4bz"%string) 1 fresh_session =
    (Raise exc_invalid_literal, fresh_session) /\
  main_args sample_int env_three_devices (Some "0x4bz"%string)
            (Some "514"%string) 1 fresh_session =
    (Raise exc_invalid_literal, fresh_session).
Proof.
  destruct (unparsable_vid sample_int env_three_devices (Some "4b8"%string)
              (Some "514"%string) 1 fresh_session)
    as (_ & Hcls & Hnone & _).
  destruct (unparsable_vid sample_int env_three_devices (Some "4b8"%string)
              (Some "0x4bz"%string) 1 fresh_session)
    as (_ & _ & _ & Hpid).
  destruct (unparsable_vid sample_int env_three_devices (Some "0x4bz"%string)
              (Some "514"%string) 1 fresh_session) as (Hmain & _).
  destruct (Hcls (Some "4b8"%string)) as (_ & _ & Hplain).
  assert (Hv : parse_arg sample_int (Some "4b8"%string) = Returns None).
  { rewrite (Hplain "4b8"%string eq_refl ltac:(discriminate) eq_refl).
    reflexivity. }
  split; [ | split; [ | split ] ].
  - exact (proj1 (Hnone (Some 514) Hv eq_refl)).
  - vm_compute. reflexivity.
  - exact (Hpid exc_invalid_literal Hv eq_refl).
  - rewrite Hmain. reflexivity.
Defined.
